(** * Global SDK installer for Windows and macOS: model and properties

    A shallow embedding of [WinMacGlobalInstaller] and of the members of
    [FileUtilities] it calls.  The host machine (operating system, registry
    query text, HTTPS peer, child processes) is a record of oracles; the file
    system, the event stream and the ordered list of outward actions form the
    explicitly threaded state.

    The file system is shown as if every asynchronous file-system call had
    completed before the next statement runs.  In the source [wipeDirectory]
    and the exclusive open only start their work, and their callbacks run
    later, interleaved with what follows.  So the file system reached by a
    single operation from a given state is meant (a wipe alone, a download
    alone); what is stated about [installSDK] and [downloadInstaller], which
    start a wipe and go on, is restricted to the order in which the calls are
    made, to the responses received and to the values returned. *)

From stdpp Require Import gmap strings list fin_maps pretty.
From Stdlib Require Import ZArith NArith Ascii.

(** ** JavaScript primitives *)

Module JS.

(** Cutting a sequence of characters at every character satisfying [p];
    the result always has at least one piece. *)
Fixpoint split_by (p : ascii -> bool) (l : list ascii) : list (list ascii) :=
  match l with
  | [] => [[]]
  | c :: l' =>
      if p c then [] :: split_by p l'
      else match split_by p l' with
           | [] => [[c]]
           | w :: ws => (c :: w) :: ws
           end
  end.

(** [s.split(sep)] for a one-character separator. *)
Definition split (sep : ascii) (s : string) : list string :=
  map String.string_of_list_ascii (split_by (Ascii.eqb sep) (String.list_ascii_of_string s)).

(** [Array.prototype.filter] with the two-argument callback
    [(value, index)]; [index] counts positions of the array being filtered. *)
Fixpoint filter_from {A} (f : A -> nat -> bool) (i : nat) (l : list A) : list A :=
  match l with
  | [] => []
  | x :: l' =>
      if f x i then x :: filter_from f (S i) l' else filter_from f (S i) l'
  end.

Definition filter {A} (f : A -> nat -> bool) (l : list A) : list A :=
  filter_from f 0 l.

(** [a.slice(-1)] rendered by a template literal: the last element, or the
    empty string for an empty array. *)
Definition last_or_empty (l : list string) : string := List.last l "".

(** [a.concat(b)]: a new array; neither [a] nor [b] is changed. *)
Definition concat {A} (a b : list A) : list A := a ++ b.

Fixpoint is_prefix (pat l : list ascii) : bool :=
  match pat, l with
  | [], _ => true
  | p :: pat', c :: l' => Ascii.eqb p c && is_prefix pat' l'
  | _ :: _, [] => false
  end.

Fixpoint replace_chars (pat rep l : list ascii) : list ascii :=
  if is_prefix pat l then rep ++ drop (length pat) l
  else match l with
       | [] => []
       | c :: l' => c :: replace_chars pat rep l'
       end.

(** [s.replace(pat, rep)] with string arguments: the first occurrence only. *)
Definition replace (s pat rep : string) : string :=
  String.string_of_list_ascii
    (replace_chars (String.list_ascii_of_string pat)
       (String.list_ascii_of_string rep) (String.list_ascii_of_string s)).

(** Numbers, restricted to what [Number] yields on unsigned decimal
    literals ([7], [7.0], [03], the empty text): [Dec m k] stands for
    [m / 10^k], before rounding to a double.  Texts [Number] reads otherwise
    (a sign, an exponent, surrounding blanks, a radix prefix, [Infinity]) are
    outside this fragment and come out as [NaN], like the texts [Number]
    rejects; statements that depend on [Number] are made for texts of the
    fragment. *)
Inductive number := NaN | Dec (mantissa : N) (scale : nat).

Definition is_digit (c : ascii) : bool :=
  let n := nat_of_ascii c in (48 <=? n)%nat && (n <=? 57)%nat.

Definition digit_value (c : ascii) : N := N.of_nat (nat_of_ascii c - 48).

Fixpoint digits_value (acc : N) (l : list ascii) : N :=
  match l with
  | [] => acc
  | c :: l' => digits_value (10 * acc + digit_value c)%N l'
  end.

Definition Number (s : string) : number :=
  match split_by (Ascii.eqb ".") (String.list_ascii_of_string s) with
  | [int] =>
      if forallb is_digit int then Dec (digits_value 0 int) 0 else NaN
  | [int; frac] =>
      if forallb is_digit int && forallb is_digit frac
         && negb (Nat.eqb (length int + length frac) 0)
      then Dec (digits_value 0 (int ++ frac)) (length frac) else NaN
  | _ => NaN
  end.

(** [a === b] and [a <= b] on numbers; both are false when a side is NaN. *)
Definition strict_eq (a b : number) : bool :=
  match a, b with
  | Dec m1 k1, Dec m2 k2 => (m1 * 10 ^ N.of_nat k2 =? m2 * 10 ^ N.of_nat k1)%N
  | _, _ => false
  end.

Definition le (a b : number) : bool :=
  match a, b with
  | Dec m1 k1, Dec m2 k2 => (m1 * 10 ^ N.of_nat k2 <=? m2 * 10 ^ N.of_nat k1)%N
  | _, _ => false
  end.

End JS.

(** ** Completions: a normal return or a thrown value / rejected promise *)

Inductive Thrown :=
| Error (message : string)
| DotnetConflictingGlobalWindowsInstallError (message : string)
| MalformedVersionError (version : string)
| Reason (text : string).

Inductive Completion (A : Type) :=
| Return (a : A)
| Throw (t : Thrown).
Arguments Return {A} a.
Arguments Throw {A} t.

Definition is_return {A} (c : Completion A) : bool :=
  match c with Return _ => true | Throw _ => false end.

(** ** Node's [path] module

    The fragment of [path.posix] and [path.win32] the installer relies on:
    [join] (concatenate, then normalise) and [dirname] / [basename].  On
    Windows a drive-letter device is recognised; UNC roots are not modelled. *)

Module NodePath.

Definition is_sep (win : bool) (c : ascii) : bool :=
  Ascii.eqb c "/" || (win && Ascii.eqb c "\").

Definition sep (win : bool) : ascii := if win then "\"%char else "/"%char.

Definition is_letter (c : ascii) : bool :=
  let n := nat_of_ascii c in
  ((65 <=? n)%nat && (n <=? 90)%nat) || ((97 <=? n)%nat && (n <=? 122)%nat).

(** Splits a leading [X:] device off a Windows path. *)
Definition split_device (win : bool) (path : list ascii) : list ascii * list ascii :=
  match path with
  | c :: d :: rest =>
      if win && is_letter c && Ascii.eqb d ":" then ([c; d], rest) else ([], path)
  | _ => ([], path)
  end.

Definition starts_with_sep (win : bool) (l : list ascii) : bool :=
  match l with c :: _ => is_sep win c | [] => false end.

Definition ends_with_sep (win : bool) (l : list ascii) : bool :=
  starts_with_sep win (rev l).

Definition dot : list ascii := ["."%char].
Definition dotdot : list ascii := ["."%char; "."%char].

Definition chars_eqb (a b : list ascii) : bool :=
  String.eqb (String.string_of_list_ascii a) (String.string_of_list_ascii b).

(** [normalizeString]: [acc] holds the segments kept so far, last first. *)
Fixpoint normalize_segments (allowAboveRoot : bool)
    (acc : list (list ascii)) (segs : list (list ascii)) : list (list ascii) :=
  match segs with
  | [] => rev acc
  | s :: rest =>
      if chars_eqb s [] || chars_eqb s dot then
        normalize_segments allowAboveRoot acc rest
      else if chars_eqb s dotdot then
        match acc with
        | a :: acc' =>
            if chars_eqb a dotdot then
              normalize_segments allowAboveRoot
                (if allowAboveRoot then dotdot :: acc else acc) rest
            else normalize_segments allowAboveRoot acc' rest
        | [] =>
            normalize_segments allowAboveRoot
              (if allowAboveRoot then [dotdot] else []) rest
        end
      else normalize_segments allowAboveRoot (s :: acc) rest
  end.

Fixpoint join_with (s : ascii) (segs : list (list ascii)) : list ascii :=
  match segs with
  | [] => []
  | [x] => x
  | x :: rest => x ++ s :: join_with s rest
  end.

Definition normalize_chars (win : bool) (path : list ascii) : list ascii :=
  match path with
  | [] => dot
  | _ =>
      let '(device, rest) := split_device win path in
      let isAbsolute := starts_with_sep win rest in
      let trailing := ends_with_sep win path in
      let tail :=
        join_with (sep win)
          (normalize_segments (negb isAbsolute) [] (JS.split_by (is_sep win) rest)) in
      let tail' :=
        match tail with
        | [] => if isAbsolute then []
                else if trailing then dot ++ [sep win] else dot
        | _ => if trailing then tail ++ [sep win] else tail
        end in
      device ++ (if isAbsolute then [sep win] else []) ++ tail'
  end.

Definition join_chars (win : bool) (args : list (list ascii)) : list ascii :=
  match List.filter (fun a => negb (chars_eqb a [])) args with
  | [] => dot
  | parts => normalize_chars win (join_with (sep win) parts)
  end.

Fixpoint drop_while (p : ascii -> bool) (l : list ascii) : list ascii :=
  match l with
  | [] => []
  | c :: l' => if p c then drop_while p l' else l
  end.

Fixpoint take_while (p : ascii -> bool) (l : list ascii) : list ascii :=
  match l with
  | [] => []
  | c :: l' => if p c then c :: take_while p l' else []
  end.

Definition not_sep (win : bool) (c : ascii) : bool := negb (is_sep win c).

(** Reversed prefix of [rest] that ends with the separator in front of the
    base name (trailing separators are skipped first). *)
Definition before_base (win : bool) (rest : list ascii) : list ascii :=
  drop_while (not_sep win) (drop_while (is_sep win) (rev rest)).

Definition dirname_chars (win : bool) (path : list ascii) : list ascii :=
  match path with
  | [] => dot
  | _ =>
      let '(device, rest) := split_device win path in
      let hasRoot := starts_with_sep win rest in
      match before_base win rest with
      | _ :: c :: r =>
          let prefix := rev (c :: r) in
          if negb win && hasRoot && Nat.eqb (length prefix) 1
          then ["/"%char; "/"%char]
          else device ++ prefix
      | _ =>
          if hasRoot then device ++ take 1 rest
          else match device with [] => dot | _ => device end
      end
  end.

Definition basename_chars (win : bool) (path : list ascii) : list ascii :=
  let '(_, rest) := split_device win path in
  rev (take_while (not_sep win) (drop_while (is_sep win) (rev rest))).

Definition join (win : bool) (args : list string) : string :=
  String.string_of_list_ascii (join_chars win (map String.list_ascii_of_string args)).

Definition dirname (win : bool) (path : string) : string :=
  String.string_of_list_ascii (dirname_chars win (String.list_ascii_of_string path)).

Definition basename (win : bool) (path : string) : string :=
  String.string_of_list_ascii (basename_chars win (String.list_ascii_of_string path)).

End NodePath.

(** ** The host machine and the threaded state *)

Inductive HttpsOutcome :=
| Response (statusCode : Z) (statusMessage : string) (body : string)
| RequestError (message : string).

Inductive WriteOutcome :=
| Finished
| WriteFailed (partial : string) (message : string).

(** What the surrounding machine answers.  [spawnSync_toString c a] is the
    text that [proc.spawnSync(c, a, ...).toString()] evaluates to, or what
    the call throws (Node throws on arguments it refuses; a command that
    cannot be started is reported inside the result),
    [spawnSync_status c a] the [status] field of the same call, and
    [execFileSync_ok c a] tells whether [proc.execFileSync(c, a, ...)]
    returns normally.  [effective_uid] is the user the process runs as;
    nothing in the code reads it.  [downloadedInstallFilesFolder] stands for
    [IGlobalInstaller.getDownloadedInstallFilesFolder()], [https_get] for the
    peer's answer to [https.get], [pipe_to_disk] for the outcome of piping
    the body into the file, [mkdirSync_error] for the failure of
    [fs.mkdirSync], if any, and [path_resolve] for [path.resolve]. *)
Record Host := {
  platform : string;
  effective_uid : N;
  downloadedInstallFilesFolder : string;
  spawnSync_toString : string -> list string -> Completion string;
  spawnSync_status : string -> list string -> option Z;
  execFileSync_ok : string -> list string -> bool;
  https_get : string -> HttpsOutcome;
  pipe_to_disk : string -> string -> WriteOutcome;
  mkdirSync_error : string -> option string;
  path_resolve : string -> string
}.

Inductive node :=
| RegularFile (content : string)
| Subdirectory.

(** Directories by path, each with its entries by name. *)
Abbreviation FileSystem := (gmap string (gmap string node)).

(** The calls recorded, in the order the code makes them: a call of
    [wipeDirectory], an [https.get], the command [executeInstall] spawns, a
    post to the event stream.  The read-only probes ([reg query],
    [net session], [id -u]) are child processes too; they are not recorded. *)
Inductive Action :=
| WipeDirectory (directory : string)
| HttpsGet (url : string)
| RunProcess (command : string) (args : list string)
| Post (event : Thrown).

Record World := {
  fs : FileSystem;
  actions : list Action;
  uncaught : list Thrown
}.

Definition with_fs (f : FileSystem) (w : World) : World :=
  {| fs := f; actions := actions w; uncaught := uncaught w |}.

Definition record_action (a : Action) (w : World) : World :=
  {| fs := fs w; actions := actions w ++ [a]; uncaught := uncaught w |}.

Definition record_uncaught (t : Thrown) (w : World) : World :=
  {| fs := fs w; actions := actions w; uncaught := uncaught w ++ [t] |}.

(** Stateful computations that may throw; the state reached before a throw
    is kept. *)
Definition M (A : Type) : Type := World -> Completion A * World.

#[global] Instance Completion_ret : MRet Completion := fun _ a => Return a.
#[global] Instance Completion_bind : MBind Completion := fun _ _ f c =>
  match c with
  | Return a => f a
  | Throw t => Throw t
  end.

#[global] Instance M_ret : MRet M := fun _ a w => (Return a, w).
#[global] Instance M_bind : MBind M := fun _ _ f m w =>
  match m w with
  | (Return a, w') => f a w'
  | (Throw t, w') => (Throw t, w')
  end.

Definition record_uncaughts (errors : list Thrown) (w : World) : World :=
  {| fs := fs w; actions := actions w; uncaught := uncaught w ++ errors |}.

Definition throw {A} (t : Thrown) : M A := fun w => (Throw t, w).
Definition perform (a : Action) : M unit := fun w => (Return tt, record_action a w).
Definition lift {A} (c : Completion A) : M A := fun w => (c, w).

(** ** File-system primitives *)

Section FileSystemOps.
Variable win : bool.

Definition lookup_path (p : string) (f : FileSystem) : option node :=
  f !! NodePath.dirname win p ≫= fun entries => entries !! NodePath.basename win p.

(** Message of a Node system error: [CODE: description, syscall 'path']. *)
Definition uvException (code description syscall path : string) : string :=
  code +:+ ": " +:+ description +:+ ", " +:+ syscall +:+ " '" +:+ path +:+ "'".

Definition write_file (p content : string) (f : FileSystem) : FileSystem :=
  match f !! NodePath.dirname win p with
  | Some entries =>
      <[NodePath.dirname win p := <[NodePath.basename win p := RegularFile content]> entries]> f
  | None => f
  end.

(** [fs.unlink(p, () => {})]: removes a regular file; any failure is
    dropped by the empty callback. *)
Definition unlink (p : string) (f : FileSystem) : FileSystem :=
  match f !! NodePath.dirname win p with
  | Some entries =>
      match entries !! NodePath.basename win p with
      | Some (RegularFile _) =>
          <[NodePath.dirname win p := delete (NodePath.basename win p) entries]> f
      | _ => f
      end
  | None => f
  end.

(** [fs.createWriteStream(dest, { flags: "wx" })]: the error message of the
    failed open, if any, and the file system afterwards. *)
Definition createWriteStream_wx (dest : string) (f : FileSystem)
  : option string * FileSystem :=
  match f !! NodePath.dirname win dest with
  | None => (Some (uvException "ENOENT" "no such file or directory" "open" dest), f)
  | Some entries =>
      match entries !! NodePath.basename win dest with
      | Some _ => (Some (uvException "EEXIST" "file already exists" "open" dest), f)
      | None => (None, write_file dest "" f)
      end
  end.

End FileSystemOps.

Definition lookup_path_in (directory name : string) (f : FileSystem) : option node :=
  f !! directory ≫= fun entries => entries !! name.

Definition is_regular (n : node) : bool :=
  match n with RegularFile _ => true | Subdirectory => false end.

(** ** FileUtilities *)

Module FileUtilities.

(** [wipeDirectory], together with its callbacks: the call is recorded and
    returns at once; the file system is the one left when the [readdir]
    callback and every [unlink] callback have run on the state given.  Every
    entry listed is unlinked; an entry that is not a regular file stays, and
    each failure ([readdir] on a missing directory, each [unlink] that fails)
    is thrown from its callback, outside the caller's control flow. *)
Definition wipeDirectory (directoryToWipe : string) : M unit := fun w =>
  let w1 := record_action (WipeDirectory directoryToWipe) w in
  match fs w1 !! directoryToWipe with
  | None => (Return tt, record_uncaught (Error "readdir") w1)
  | Some files =>
      let kept := filter (fun kv => is_regular kv.2 = false) files in
      let w2 := with_fs (<[directoryToWipe := kept]> (fs w1)) w1 in
      (Return tt, record_uncaughts (replicate (size kept) (Error "unlink")) w2)
  end.

Definition isElevated (h : Host) : bool :=
  if negb (String.eqb (platform h) "win32") then
    let commandResult_status := spawnSync_status h "id" ["-u"%string] in
    bool_decide (commandResult_status = Some 0%Z)
  else
    if execFileSync_ok h "net" ["session"%string] then true else false.

End FileUtilities.

(** ** VersionResolver

    The three parsing helpers the conflict test relies on. *)

Record VersionResolver := {
  getMajorMinor : string -> Completion string;
  getFeatureBandFromVersion : string -> Completion string;
  getFeatureBandPatchVersion : string -> Completion string
}.

(** ** WinMacGlobalInstaller *)

Module WinMacGlobalInstaller.

Section Installer.
Variable VR : VersionResolver.
Variable h : Host.

(** [path] resolves to [path.win32] exactly when the platform is win32. *)
Definition win : bool := String.eqb (platform h) "win32".

Definition extractVersionsOutOfRegistryKeyStrings (registryQueryResult : string)
  : list string :=
  JS.filter (fun (value : string) (i : nat) => Nat.eqb (i mod 3) 0)
    (JS.filter (fun (value : string) (i : nat) =>
                  negb (String.eqb value "") && negb (Nat.eqb i 0))
       (JS.split " " registryQueryResult)).

Definition sdkInstallRecords64Bit : string :=
  "HKEY_LOCAL_MACHINE\SOFTWARE\WOW6432Node\dotnet\Setup\InstalledVersions\x64\sdk".

Definition sdkInstallRecords32Bit : string :=
  JS.replace sdkInstallRecords64Bit "x64" "x86".

Definition registryQueryCommand : string := "%SystemRoot%\System32\reg.exe".

Definition double_quote : ascii := ascii_of_nat 34.

Definition quoted (query : string) : string :=
  String double_quote query +:+ String double_quote EmptyString.

(** The [for (let query of queries)] loop; [sdks] is the array declared before
    it.  [sdks.concat(installedSdks)] builds a new array whose value the
    statement drops, so [sdks] itself is passed on as it was. *)
Fixpoint query_loop (queries : list string) (sdks : list string) : list string :=
  match queries with
  | [] => sdks
  | query :: rest =>
      match spawnSync_toString h registryQueryCommand ["query"%string; quoted query] with
      | Return installRecordKeysOfXBit =>
          let installedSdks :=
            extractVersionsOutOfRegistryKeyStrings installRecordKeysOfXBit in
          let _ := JS.concat sdks installedSdks in
          query_loop rest sdks
      | Throw _ => query_loop rest sdks
      end
  end.

Definition getGlobalSdkVersionsInstalledOnMachine : list string :=
  let sdks : list string := [] in
  if String.eqb (platform h) "win32" then
    query_loop [sdkInstallRecords32Bit; sdkInstallRecords64Bit] sdks
  else sdks.

(** The condition of the [if] inside the scan, with the short-circuit order
    of [&&]. *)
Definition conflicts (requestedVersion sdk : string) : Completion bool :=
  a ← getMajorMinor VR requestedVersion;
  b ← getMajorMinor VR sdk;
  if negb (JS.strict_eq (JS.Number a) (JS.Number b)) then mret false else
  c ← getFeatureBandFromVersion VR requestedVersion;
  d ← getFeatureBandFromVersion VR sdk;
  if negb (JS.strict_eq (JS.Number c) (JS.Number d)) then mret false else
  e ← getFeatureBandPatchVersion VR requestedVersion;
  f ← getFeatureBandPatchVersion VR sdk;
  mret (JS.le (JS.Number e) (JS.Number f)).

(** The [for (let sdk of sdks)] scan. *)
Fixpoint conflict_scan (requestedVersion : string) (sdks : list string)
  : Completion string :=
  match sdks with
  | [] => mret ""%string
  | sdk :: rest =>
      hit ← conflicts requestedVersion sdk;
      if hit : bool then mret sdk else conflict_scan requestedVersion rest
  end.

Definition GlobalWindowsInstallWithConflictingVersionAlreadyExists
    (requestedVersion : string) : Completion string :=
  let sdks := getGlobalSdkVersionsInstalledOnMachine in
  conflict_scan requestedVersion sdks.

Definition unsupported_os : Thrown := Error "The operating system is unsupported.".

Definition getExpectedGlobalSDKPath (specificSDKVersionInstalled installedArch : string)
  : Completion string :=
  if String.eqb (platform h) "win32" then
    if String.eqb installedArch "x32" then
      Return (NodePath.join win
                ["C:\Program Files (x86)\dotnet\sdk\"%string;
                 specificSDKVersionInstalled; "dotnet.dll"%string])
    else if String.eqb installedArch "x64" then
      Return (NodePath.join win
                ["C:\Program Files\dotnet\sdk\"%string;
                 specificSDKVersionInstalled; "dotnet.dll"%string])
    else Throw unsupported_os
  else if String.eqb (platform h) "darwin" then
    if negb (String.eqb installedArch "x64") then
      Return (NodePath.join win
                ["/usr/local/share/dotnet/sdk"%string; specificSDKVersionInstalled])
    else
      Return (NodePath.join win
                ["/usr/local/share/dotnet/x64/dotnet/sdk"%string;
                 specificSDKVersionInstalled])
  else Throw unsupported_os.

(** The [file.on("error", ...)] handler: the rejection it issues and the
    file system it leaves. *)
Definition file_error_handler (dest message : string) (f : FileSystem)
  : Completion unit * FileSystem :=
  if String.eqb message "EEXIST" then (Throw (Reason "File already exists"), f)
  else (Throw (Reason message), unlink win dest f).

(** The start of the executor of [download]: the directory of the
    destination is created, by itself and without its ancestors, when it
    does not exist.  A path is taken to exist when it is a directory of the
    table.  For a path that is a regular file the code skips [mkdirSync] and
    the open fails later; here [mkdirSync_error] is asked, and the promise is
    rejected in both. *)
Definition ensure_directory (installerDir : string) (f : FileSystem)
  : Completion FileSystem :=
  match f !! installerDir with
  | Some _ => Return f
  | None =>
      match mkdirSync_error h installerDir with
      | Some message => Throw (Error message)
      | None => Return (<[installerDir := ∅]> f)
      end
  end.

(** The rest of [download], from [createWriteStream] on, on the file system
    [f1] left by the directory step: the exclusive open and the request are
    issued; then the stream's open failure, if any, is delivered; then the
    response or the request error; then the outcome of piping.  A promise
    keeps its first settlement. *)
Definition download_stream (url dest : string) (f1 : FileSystem) (w : World)
  : Completion unit * World :=
  let '(openError, f2) := createWriteStream_wx win dest f1 in
  let w2 := record_action (HttpsGet url) w in
  match openError with
  | Some message =>
      let '(rejection, f3) := file_error_handler dest message f2 in
      let f4 :=
        match https_get h url with
        | Response statusCode _ _ =>
            if Z.eqb statusCode 200 then f3 else unlink win dest f3
        | RequestError _ => unlink win dest f3
        end in
      (rejection, with_fs f4 w2)
  | None =>
      match https_get h url with
      | Response statusCode statusMessage body =>
          if Z.eqb statusCode 200 then
            match pipe_to_disk h dest body with
            | Finished => (Return tt, with_fs (write_file win dest body f2) w2)
            | WriteFailed partial message =>
                let '(rejection, f3) :=
                  file_error_handler dest message (write_file win dest partial f2) in
                (rejection, with_fs f3 w2)
            end
          else
            (Throw (Reason ("Server responded with " +:+ pretty statusCode
                            +:+ ": " +:+ statusMessage)),
             with_fs (unlink win dest f2) w2)
      | RequestError message =>
          (Throw (Reason message), with_fs (unlink win dest f2) w2)
      end
  end.

(** [download], for the runs in which the promise settles: [https.get]
    answers or fails, and the stream finishes or fails.  A promise that
    stays pending, and [https.get] throwing at the call (a malformed URL),
    are not among the outcomes of [HttpsOutcome]. *)
Definition download (url dest : string) : M unit := fun w =>
  let installerDir := NodePath.dirname win dest in
  match ensure_directory installerDir (fs w) with
  | Throw t => (Throw t, w)
  | Return f1 => download_stream url dest f1 w
  end.

Definition downloadInstaller (installerUrl : string) : M string :=
  let ourInstallerDownloadFolder := downloadedInstallFilesFolder h in
  _ ← FileUtilities.wipeDirectory ourInstallerDownloadFolder;
  let installerPath :=
    NodePath.join win
      [ourInstallerDownloadFolder; JS.last_or_empty (JS.split "/" installerUrl)] in
  _ ← download installerUrl installerPath;
  mret installerPath.

(** What [executeInstall] hands back: the text of the command result, or the
    caught error object itself. *)
Inductive InstallerResult :=
| Output (text : string)
| Caught (error : Thrown).

Definition executeInstall (installerPath : string) : M InstallerResult :=
  let '(command, args) :=
    if String.eqb (platform h) "darwin" then
      ("open"%string, ["-W"%string; path_resolve h installerPath])
    else
      (path_resolve h installerPath,
       if FileUtilities.isElevated h
       then ["/quiet"%string; "/install"%string; "/norestart"%string] else []) in
  _ ← perform (RunProcess command args);
  match spawnSync_toString h command args with
  | Return commandResult => mret (Output commandResult)
  | Throw error => mret (Caught error)
  end.

Definition conflict_message (conflictingVersion : string) : string :=
  "An global install is already on the machine: version " +:+ conflictingVersion
  +:+ ", that conflicts with the requested version."
  +:+ String (ascii_of_nat 10)
        "                    Please uninstall this version first if you would like to continue.".

Definition installSDK (installingVersion installerUrl : string) : M InstallerResult :=
  _ ← (if String.eqb (platform h) "win32" then
         conflictingVersion ←
           lift (GlobalWindowsInstallWithConflictingVersionAlreadyExists installingVersion);
         if negb (String.eqb conflictingVersion "") then
           let err :=
             DotnetConflictingGlobalWindowsInstallError
               (conflict_message conflictingVersion) in
           _ ← perform (Post err);
           throw err
         else mret tt
       else mret tt);
  installerFile ← downloadInstaller installerUrl;
  installerResult ← executeInstall installerFile;
  _ ← FileUtilities.wipeDirectory (NodePath.dirname win installerFile);
  mret installerResult.

End Installer.

End WinMacGlobalInstaller.

(** ** VersionResolver as the specification describes it *)

Module SpecVersionResolver.

(** Modelled from the spec: the patch component read by
    [VersionResolver.getFeatureBandFromVersion] and
    [getFeatureBandPatchVersion], whose class is not among the sources.  A
    version needs at least major.minor.patch; a suffix after the digits of
    the patch is ignored. *)
Definition patch_number (version : string) : Completion N :=
  match JS.split "." version with
  | _ :: _ :: patch :: _ =>
      match NodePath.take_while JS.is_digit (String.list_ascii_of_string patch) with
      | [] => Throw (MalformedVersionError version)
      | digits => Return (JS.digits_value 0 digits)
      end
  | _ => Throw (MalformedVersionError version)
  end.

(** Modelled from the spec: [VersionResolver.getMajorMinor], the first two
    components of a version that has at least three. *)
Definition majorMinor (version : string) : Completion string :=
  match JS.split "." version with
  | major :: minor :: _ :: _ => Return (major +:+ "." +:+ minor)
  | _ => Throw (MalformedVersionError version)
  end.

(** Modelled from the spec: the three helpers of [VersionResolver]; the
    feature band is the hundreds group of the patch component and the band
    patch is what remains of it. *)
Definition resolver : VersionResolver := {|
  getMajorMinor := majorMinor;
  getFeatureBandFromVersion := fun version =>
    p ← patch_number version; mret (pretty (p / 100)%N);
  getFeatureBandPatchVersion := fun version =>
    p ← patch_number version; mret (pretty (p mod 100)%N)
|}.

End SpecVersionResolver.

(** ** Sample machines *)

Module Samples.

Definition registry_text : string :=
  "HKEY_LOCAL_MACHINE\SOFTWARE\WOW6432Node\dotnet\Setup\InstalledVersions\x64\sdk    7.0.203    REG_DWORD    0x1".

(** A Windows machine whose 64-bit hive records SDK 7.0.203, whose download
    server answers every request with [answer]. *)
Definition windows (answer : HttpsOutcome) : Host := {|
  platform := "win32";
  effective_uid := 0;
  downloadedInstallFilesFolder := "C:\Users\dev\installers";
  spawnSync_toString := fun command args =>
    if String.eqb command WinMacGlobalInstaller.registryQueryCommand then
      match args with
      | [_; key] =>
          if String.eqb key
               (WinMacGlobalInstaller.quoted WinMacGlobalInstaller.sdkInstallRecords64Bit)
          then Return registry_text else Return ""%string
      | _ => Return ""%string
      end
    else Return "done"%string;
  spawnSync_status := fun _ _ => None;
  execFileSync_ok := fun _ _ => false;
  https_get := fun _ => answer;
  pipe_to_disk := fun _ _ => Finished;
  mkdirSync_error := fun _ => None;
  path_resolve := fun p => p
|}.

(** A Linux machine run by an ordinary user (uid 1000) on which [id] is
    installed: [id -u] prints the uid and exits with status 0. *)
Definition linux_user : Host := {|
  platform := "linux";
  effective_uid := 1000;
  downloadedInstallFilesFolder := "/home/dev/installers";
  spawnSync_toString := fun _ _ => Return "1000"%string;
  spawnSync_status := fun command args =>
    if String.eqb command "id" then Some 0%Z else None;
  execFileSync_ok := fun _ _ => false;
  https_get := fun _ => RequestError "ECONNREFUSED";
  pipe_to_disk := fun _ _ => Finished;
  mkdirSync_error := fun _ => None;
  path_resolve := fun p => p
|}.

Definition empty_scratch (folder : string) : World :=
  {| fs := {[ folder := ∅ ]}; actions := []; uncaught := [] |}.

Definition stale_scratch (folder name content : string) : World :=
  {| fs := {[ folder := {[ name := RegularFile content ]} ]};
     actions := []; uncaught := [] |}.

End Samples.

Import WinMacGlobalInstaller.

(** Words of the specification kept next to the code's definitions. *)

(** Every third element, starting with the first. *)
Fixpoint every_third {A} (l : list A) : list A :=
  match l with
  | x :: rest =>
      x :: match rest with
           | _ :: _ :: rest' => every_third rest'
           | _ => []
           end
  | [] => []
  end.

Definition nonblank (token : string) : bool := negb (String.eqb token "").

(** Tokens of a query output separated by single spaces. *)
Definition spaced (tokens : list string) : string :=
  String.string_of_list_ascii
    (NodePath.join_with " " (map String.list_ascii_of_string tokens)).

(** Shapes of paths on which [join] and [dirname] are characterised. *)

Section PathShapes.
Variable win : bool.

(** A plain segment: not empty, not [.] or [..], free of separators. *)
Definition plain_chars (v : list ascii) : bool :=
  negb (NodePath.chars_eqb v []) && negb (NodePath.chars_eqb v NodePath.dot)
  && negb (NodePath.chars_eqb v NodePath.dotdot)
  && forallb (NodePath.not_sep win) v.

(** Segments [normalizeString] keeps, and segments it does not interpret. *)
Definition kept_segment (s : list ascii) : bool :=
  negb (NodePath.chars_eqb s []).

Definition dot_free (s : list ascii) : bool :=
  negb (NodePath.chars_eqb s NodePath.dot) && negb (NodePath.chars_eqb s NodePath.dotdot).

Definition sep_free (s : list ascii) : bool := forallb (NodePath.not_sep win) s.

(** No device, or a drive letter and a colon on Windows. *)
Definition device_ok (device : list ascii) : bool :=
  match device with
  | [] => true
  | [c; d] => win && NodePath.is_letter c && Ascii.eqb d ":"
  | _ => false
  end.

End PathShapes.

(** A version string that is one plain path segment: not empty, not [.] or
    [..], and free of separators. *)
Definition plain_segment (win : bool) (s : string) : bool :=
  plain_chars win (String.list_ascii_of_string s).

(** An absolute, normalised path: an optional drive, then plain segments. *)
Definition rooted_path (win : bool) (device : string) (segments : list string) : string :=
  String.string_of_list_ascii
    (String.list_ascii_of_string device
       ++ NodePath.sep win
       :: NodePath.join_with (NodePath.sep win)
            (map String.list_ascii_of_string segments)).

Definition rooted_ok (win : bool) (device : string) (segments : list string) : bool :=
  device_ok win (String.list_ascii_of_string device)
  && negb (Nat.eqb (length segments) 0)
  && forallb (plain_segment win) segments.

(** A response other than 200, or a request that failed. *)
Definition failed_response (o : HttpsOutcome) : bool :=
  match o with
  | Response statusCode _ _ => negb (Z.eqb statusCode 200)
  | RequestError _ => true
  end.

(** No regular file is left in [directory]. *)
Definition no_regular_files (directory : string) (f : FileSystem) : Prop :=
  forall entries name content,
    f !! directory = Some entries -> entries !! name <> Some (RegularFile content).

(** Where [downloadInstaller] puts the file, and the command
    [executeInstall] runs for it. *)
Definition installerPath_of (h : Host) (installerUrl : string) : string :=
  NodePath.join (win h)
    [downloadedInstallFilesFolder h; JS.last_or_empty (JS.split "/" installerUrl)].

Definition installer_command (h : Host) (installerPath : string) : string * list string :=
  if String.eqb (platform h) "darwin" then
    ("open"%string, ["-W"%string; path_resolve h installerPath])
  else
    (path_resolve h installerPath,
     if FileUtilities.isElevated h
     then ["/quiet"%string; "/install"%string; "/norestart"%string] else []).


(** ** FileUtilities.writeFileOntoDisk

    The [eol] package: [eol.auto] replaces every line break (CR LF, a lone CR
    or a lone LF, matched from left to right) with the line break of the
    platform. *)

Module Eol.

Definition CR : ascii := ascii_of_nat 13.
Definition LF : ascii := ascii_of_nat 10.

Definition linebreak (win : bool) : list ascii := if win then [CR; LF] else [LF].

Fixpoint convert (to : list ascii) (text : list ascii) : list ascii :=
  match text with
  | [] => []
  | c :: rest =>
      if Ascii.eqb c CR then
        match rest with
        | d :: rest' =>
            if Ascii.eqb d LF then to ++ convert to rest' else to ++ convert to rest
        | [] => to
        end
      else if Ascii.eqb c LF then to ++ convert to rest
      else c :: convert to rest
  end.

Definition auto (win : bool) (text : string) : string :=
  String.string_of_list_ascii (convert (linebreak win) (String.list_ascii_of_string text)).

End Eol.

(** A disk with permission bits: the files of [FileSystem] and, for each
    (directory, name), the mode last set by [chmod]. *)
Record Disk := {
  disk_files : FileSystem;
  disk_modes : gmap (string * string) N
}.

Module FileUtilitiesDisk.

Section Writer.
Variable h : Host.

(** [0o700], and [0o666]: on Windows [chmod] honours the write bit only, and
    a writable file shows as [0o666]. *)
Definition owner_only : N := 448.
Definition writable : N := 438.

(** [fs.existsSync]: the path is a directory of the table, or a regular file
    of its directory. *)
Definition existsSync (p : string) (f : FileSystem) : bool :=
  match f !! p, lookup_path (win h) p f with
  | Some _, _ => true
  | None, Some (RegularFile _) => true
  | None, _ => false
  end.

(** One [mkdir]: the directory gets an empty table and is entered in its
    parent, when the parent has a table. *)
Definition mkdir (directory : string) (f : FileSystem) : Completion unit * FileSystem :=
  match mkdirSync_error h directory with
  | Some message => (Throw (Error message), f)
  | None =>
      let parent := NodePath.dirname (win h) directory in
      let f1 :=
        match f !! parent with
        | Some entries =>
            <[parent := <[NodePath.basename (win h) directory := Subdirectory]> entries]> f
        | None => f
        end in
      (Return tt, <[directory := ∅]> f1)
  end.

(** [fs.mkdirSync(directory, { recursive: true })]: the missing ancestors are
    created first, from the top; an ancestor that is a regular file stops it,
    and so does a [mkdir] that fails; what was created by then stays.
    [fuel] bounds the number of ancestors: every step to the parent shortens
    the path, but for the step from a bare name to [.], so the length of the
    path and one more is enough. *)
Fixpoint mkdirSync_recursive (fuel : nat) (directory : string) (f : FileSystem)
  : Completion unit * FileSystem :=
  match f !! directory with
  | Some _ => (Return tt, f)
  | None =>
      match lookup_path (win h) directory f with
      | Some (RegularFile _) =>
          (Throw (Error (uvException "ENOTDIR" "not a directory" "mkdir" directory)), f)
      | _ =>
          match fuel with
          | S fuel' =>
              let parent := NodePath.dirname (win h) directory in
              if String.eqb parent directory then mkdir directory f
              else
                match mkdirSync_recursive fuel' parent f with
                | (Return _, f1) => mkdir directory f1
                | (Throw t, f1) => (Throw t, f1)
                end
          | O => mkdir directory f
          end
      end
  end.

(** [fs.writeFileSync]: the file is created or replaced; the call throws when
    the directory of the path is not a directory, and when the path names a
    directory. *)
Definition writeFileSync (p content : string) (f : FileSystem)
  : Completion unit * FileSystem :=
  match f !! NodePath.dirname (win h) p with
  | None =>
      match lookup_path (win h) (NodePath.dirname (win h) p) f with
      | Some (RegularFile _) =>
          (Throw (Error (uvException "ENOTDIR" "not a directory" "open" p)), f)
      | _ =>
          (Throw (Error (uvException "ENOENT" "no such file or directory" "open" p)), f)
      end
  | Some entries =>
      match f !! p, entries !! NodePath.basename (win h) p with
      | None, Some (RegularFile _) | None, None =>
          (Return tt, write_file (win h) p content f)
      | _, _ =>
          (Throw (Error (uvException "EISDIR" "illegal operation on a directory"
                           "open" p)), f)
      end
  end.

(** [writeFileOntoDisk]: the directory and its missing ancestors are created
    when the directory does not exist, the content gets the platform's line
    breaks, [writeFileSync] replaces the file and [chmodSync] sets the mode.
    Once the file is open, the write and [chmodSync] are taken to succeed:
    the failures shown are those of [mkdirSync] and of the open. *)
Definition writeFileOntoDisk (scriptContent filePath : string) (d : Disk)
  : Completion unit * Disk :=
  let directory := NodePath.dirname (win h) filePath in
  let '(made, f1) :=
    if existsSync directory (disk_files d) then (Return tt, disk_files d)
    else mkdirSync_recursive (S (String.length directory)) directory (disk_files d) in
  match made with
  | Throw t => (Throw t, {| disk_files := f1; disk_modes := disk_modes d |})
  | Return _ =>
      let scriptContent' := Eol.auto (win h) scriptContent in
      match writeFileSync filePath scriptContent' f1 with
      | (Throw t, f2) => (Throw t, {| disk_files := f2; disk_modes := disk_modes d |})
      | (Return _, f2) =>
          (Return tt,
           {| disk_files := f2;
              disk_modes :=
                <[(directory, NodePath.basename (win h) filePath)
                  := if win h then writable else owner_only]> (disk_modes d) |})
      end
  end.

End Writer.

End FileUtilitiesDisk.

(** ** MockIndexWebRequestWorker *)

Module MockIndexWebRequestWorker.

(** [a.indexOf(x)]: the first position of [x], or -1. *)
Fixpoint indexOf (a : list string) (x : string) : Z :=
  match a with
  | [] => (-1)%Z
  | y :: rest =>
      if String.eqb y x then 0%Z
      else let i := indexOf rest x in if Z.eqb i (-1) then (-1)%Z else (i + 1)%Z
  end.

(** [getCachedData] over the two public arrays of the mock; an index past
    the end of the responses reads [undefined], here [None]. *)
Definition getCachedData (knownUrls matchingUrlResponses : list string) (url : string)
  : Completion (option string) :=
  let urlResponseIndex := indexOf knownUrls url in
  if Z.eqb urlResponseIndex (-1) then
    Throw (Error ("The requested URL " +:+ url
                  +:+ " was not expected as the mock object did not have a set response for it."))
  else Return (matchingUrlResponses !! Z.to_nat urlResponseIndex).

End MockIndexWebRequestWorker.

(** ** Shape of a registry query output

    What [reg query] prints for a key: the key, then one line per value, each
    field preceded by four spaces.  Line ends stay inside the fields. *)

Definition registry_line (record : string * string * string) : string :=
  let '(name, type, data) := record in
  "    " +:+ name +:+ "    " +:+ type +:+ "    " +:+ data.

Definition registry_output (key : string) (records : list (string * string * string))
  : string :=
  key +:+ fold_right (fun record rest => registry_line record +:+ rest) "" records.

Definition space_free (s : string) : bool :=
  forallb (fun c => negb (Ascii.eqb " " c)) (String.list_ascii_of_string s).

Definition field_ok (s : string) : bool := nonblank s && space_free s.

Definition record_ok (record : string * string * string) : bool :=
  let '(name, type, data) := record in field_ok name && field_ok type && field_ok data.

(** ** More sample machines *)

Module MoreSamples.

(** A Mac run by the administrator whose installer commands throw. *)
Definition mac_root : Host := {|
  platform := "darwin";
  effective_uid := 0;
  downloadedInstallFilesFolder := "/Users/dev/installers";
  spawnSync_toString := fun _ _ => Throw (Error "spawnSync open ENOENT");
  spawnSync_status := fun command _ => if String.eqb command "id" then Some 0%Z else None;
  execFileSync_ok := fun _ _ => false;
  https_get := fun _ => Response 200 "OK" "pkg";
  pipe_to_disk := fun _ _ => Finished;
  mkdirSync_error := fun _ => None;
  path_resolve := fun p => p
|}.

(** A released pair of SDKs as [reg query] prints them, line ends included. *)
Definition crlf : string := String Eol.CR (String Eol.LF EmptyString).

Definition two_sdks : list (string * string * string) :=
  [("7.0.203", "REG_DWORD", "0x1" +:+ crlf);
   ("8.0.100", "REG_DWORD", "0x1" +:+ crlf +:+ crlf)]%string.

Definition empty_disk (folder : string) : Disk :=
  {| disk_files := {[ folder := ∅ ]}; disk_modes := ∅ |}.

(** A disk whose only directory is [folder], holding the regular file
    [name]. *)
Definition disk_with_file (folder name content : string) : Disk :=
  {| disk_files := {[ folder := {[ name := RegularFile content ]} ]};
     disk_modes := ∅ |}.

End MoreSamples.

(** [f'] agrees with [f] everywhere but at [name] in [directory]. *)
Definition same_elsewhere (directory name : string) (f f' : FileSystem) : Prop :=
  forall d n, d <> directory \/ n <> name ->
              lookup_path_in d n f' = lookup_path_in d n f.

(** [f'] holds the regular files of [f], with their contents, and no other. *)
Definition same_regular_files (f f' : FileSystem) : Prop :=
  forall d n content,
    lookup_path_in d n f' = Some (RegularFile content)
    <-> lookup_path_in d n f = Some (RegularFile content).

(** A number other than NaN. *)
Definition is_number (n : JS.number) : bool :=
  match n with JS.NaN => false | JS.Dec _ _ => true end.

(** An unsigned decimal literal: digits only (possibly none), or digits, one
    dot and digits, with at least one digit beside the dot. *)
Definition unsigned_decimal (s : string) : bool :=
  let l := String.list_ascii_of_string s in
  match NodePath.drop_while JS.is_digit l with
  | [] => true
  | c :: frac =>
      Ascii.eqb c "." && forallb JS.is_digit frac
      && negb (Nat.eqb (length (NodePath.take_while JS.is_digit l) + length frac) 0)
  end.

(** * Properties *)

(** ** Registry enumeration *)

Lemma query_loop_keeps_sdks h queries sdks : query_loop h queries sdks = sdks.
Proof.
  induction queries as [|query rest IH]; simpl; [reflexivity|].
  destruct (spawnSync_toString h _ _); apply IH.
Qed.

Lemma getGlobalSdkVersionsInstalledOnMachine_nil h :
  getGlobalSdkVersionsInstalledOnMachine h = [].
Proof.
  unfold getGlobalSdkVersionsInstalledOnMachine.
  destruct (String.eqb _ _); [apply query_loop_keeps_sdks | reflexivity].
Qed.

(** C2. On the sample Windows machine the 64-bit hive's query output parses to
    the version 7.0.203, and the enumeration nevertheless returns the empty
    array: the array built by [concat] is dropped on every turn of the loop. *)
Theorem enumeration_drops_parsed_versions :
  let h := Samples.windows (RequestError "unreachable") in
  spawnSync_toString h registryQueryCommand
    ["query"%string; quoted sdkInstallRecords64Bit] = Return Samples.registry_text
  /\ extractVersionsOutOfRegistryKeyStrings Samples.registry_text = ["7.0.203"%string]
  /\ getGlobalSdkVersionsInstalledOnMachine h = [].
Proof. repeat split; vm_compute; reflexivity. Qed.

(** ** The conflict check *)

Lemma conflict_check_returns_empty VR h requestedVersion :
  GlobalWindowsInstallWithConflictingVersionAlreadyExists VR h requestedVersion
  = Return ""%string.
Proof.
  unfold GlobalWindowsInstallWithConflictingVersionAlreadyExists.
  rewrite getGlobalSdkVersionsInstalledOnMachine_nil. reflexivity.
Qed.

(** The scan itself follows the rule on whatever array it is given: it stops
    at the first element the condition accepts. *)
Lemma conflict_scan_hit VR requestedVersion before sdk after :
  Forall (fun s => conflicts VR requestedVersion s = Return false) before ->
  conflicts VR requestedVersion sdk = Return true ->
  conflict_scan VR requestedVersion (before ++ sdk :: after) = Return sdk.
Proof.
  intros Hbefore Hsdk. induction Hbefore as [|s before Hs _ IH]; simpl.
  - rewrite Hsdk. reflexivity.
  - rewrite Hs. simpl. exact IH.
Qed.

Lemma conflict_scan_miss VR requestedVersion sdks :
  Forall (fun s => conflicts VR requestedVersion s = Return false) sdks ->
  conflict_scan VR requestedVersion sdks = Return ""%string.
Proof.
  induction 1 as [|s sdks Hs _ IH]; simpl; [reflexivity|].
  rewrite Hs. simpl. exact IH.
Qed.

(** C1. SDK 7.0.203 is recorded in the registry of the sample Windows machine
    and the rule makes it conflict with a request for 7.0.201 (the scan
    returns it when handed the array), yet the conflict check returns the
    empty string, because the enumeration it scans is always empty. *)
Theorem conflict_check_misses_installed_sdk :
  let h := Samples.windows (RequestError "unreachable") in
  let VR := SpecVersionResolver.resolver in
  extractVersionsOutOfRegistryKeyStrings Samples.registry_text = ["7.0.203"%string]
  /\ conflicts VR "7.0.201" "7.0.203" = Return true
  /\ conflict_scan VR "7.0.201" ["7.0.203"%string] = Return "7.0.203"%string
  /\ conflict_scan VR "7.0.301" ["7.0.203"%string] = Return ""%string
  /\ GlobalWindowsInstallWithConflictingVersionAlreadyExists VR h "7.0.201"
     = Return ""%string.
Proof. repeat split; vm_compute; reflexivity. Qed.

(** ** Privilege detection *)

Lemma isElevated_windows h :
  platform h = "win32"%string ->
  FileUtilities.isElevated h = execFileSync_ok h "net" ["session"%string].
Proof.
  intros Hp. unfold FileUtilities.isElevated. rewrite Hp. simpl.
  destruct (execFileSync_ok h _ _); reflexivity.
Qed.

Lemma isElevated_elsewhere h :
  platform h <> "win32"%string ->
  FileUtilities.isElevated h = true <-> spawnSync_status h "id" ["-u"%string] = Some 0%Z.
Proof.
  intros Hp. unfold FileUtilities.isElevated.
  destruct (String.eqb_spec (platform h) "win32") as [E|_]; [contradiction|].
  simpl. apply bool_decide_eq_true.
Qed.

(** C9. On a Linux machine run by the ordinary user 1000, [id -u] exits with
    status 0 and [isElevated] answers true although the effective user id is
    not zero: the exit status of [id] is tested, not the id it prints. *)
Theorem isElevated_true_for_ordinary_user :
  platform Samples.linux_user <> "win32"%string
  /\ effective_uid Samples.linux_user = 1000%N
  /\ spawnSync_status Samples.linux_user "id" ["-u"%string] = Some 0%Z
  /\ FileUtilities.isElevated Samples.linux_user = true.
Proof. repeat split; try reflexivity. discriminate. Qed.

(** ** Version extraction from a registry query output *)

Lemma filter_from_after_first (l : list string) i :
  JS.filter_from
    (fun (value : string) (i : nat) => negb (String.eqb value "") && negb (Nat.eqb i 0))
    (S i) l
  = List.filter nonblank l.
Proof.
  revert i. induction l as [|x l IH]; intros i; simpl; [reflexivity|].
  rewrite IH. unfold nonblank. rewrite andb_true_r. reflexivity.
Qed.

Lemma filter_drops_blank_and_first (l : list string) :
  JS.filter
    (fun (value : string) (i : nat) => negb (String.eqb value "") && negb (Nat.eqb i 0)) l
  = List.filter nonblank (tail l).
Proof.
  destruct l as [|x l]; [reflexivity|].
  unfold JS.filter. simpl. rewrite andb_false_r. apply filter_from_after_first.
Qed.

Lemma mod3_0 k : (3 * k) mod 3 = 0.
Proof. rewrite Nat.mul_comm. apply Nat.Div0.mod_mul. Qed.

Lemma mod3_1 k : (3 * k + 1) mod 3 = 1.
Proof.
  replace (3 * k + 1) with (1 + k * 3) by lia. rewrite Nat.Div0.mod_add. reflexivity.
Qed.

Lemma mod3_2 k : (3 * k + 2) mod 3 = 2.
Proof.
  replace (3 * k + 2) with (2 + k * 3) by lia. rewrite Nat.Div0.mod_add. reflexivity.
Qed.

Lemma filter_from_mod3 {A} (l : list A) :
  forall k,
    JS.filter_from (fun (_ : A) (i : nat) => Nat.eqb (i mod 3) 0) (3 * k) l
    = every_third l
    /\ JS.filter_from (fun (_ : A) (i : nat) => Nat.eqb (i mod 3) 0) (3 * k + 1) l
       = every_third (drop 2 l)
    /\ JS.filter_from (fun (_ : A) (i : nat) => Nat.eqb (i mod 3) 0) (3 * k + 2) l
       = every_third (drop 1 l).
Proof.
  induction l as [|x l IH]; intros k; [repeat split|].
  destruct (IH k) as (_ & IH1 & IH2). destruct (IH (S k)) as (IH0 & _ & _).
  cbn [JS.filter_from]. rewrite mod3_0, mod3_1, mod3_2. cbn [Nat.eqb].
  replace (S (3 * k)) with (3 * k + 1) by lia.
  replace (S (3 * k + 1)) with (3 * k + 2) by lia.
  replace (S (3 * k + 2)) with (3 * S k) by lia.
  rewrite IH0, IH1, IH2. split; [|split; reflexivity].
  destruct l as [|a [|b l]]; reflexivity.
Qed.

Lemma filter_every_third {A} (l : list A) :
  JS.filter (fun (_ : A) (i : nat) => Nat.eqb (i mod 3) 0) l = every_third l.
Proof. exact (proj1 (filter_from_mod3 l 0)). Qed.

(** C3, as stated, fails: on the query output made of the tokens of the
    specification's example the extraction does not return the two versions. *)
Lemma extraction_of_two_token_records :
  extractVersionsOutOfRegistryKeyStrings
    (spaced ["HKLM\...\sdk"; ""; "7.0.203"; "REG_SZ"; ""; "8.0.100"; "REG_SZ"; ""]%string)
  <> ["7.0.203"; "8.0.100"]%string.
Proof. vm_compute. discriminate. Qed.

(** C3, amended.  A record spans three non-blank tokens (value name, type,
    data): on the example of the specification, whose records have two, the
    extraction returns 7.0.203 and REG_SZ; with the data token present it
    returns the two versions.  In general it drops the leading query echo
    and the blank tokens, and keeps every third remaining token starting at
    the first value name. *)
Theorem extraction_keeps_every_third_token :
  extractVersionsOutOfRegistryKeyStrings
    (spaced ["HKLM\...\sdk"; ""; "7.0.203"; "REG_SZ"; ""; "8.0.100"; "REG_SZ"; ""]%string)
  = ["7.0.203"; "REG_SZ"]%string
  /\ extractVersionsOutOfRegistryKeyStrings
       (spaced ["HKLM\...\sdk"; ""; "7.0.203"; "REG_DWORD"; "0x1"; "";
                "8.0.100"; "REG_DWORD"; "0x1"; ""]%string)
     = ["7.0.203"; "8.0.100"]%string
  /\ forall registryQueryResult,
       extractVersionsOutOfRegistryKeyStrings registryQueryResult
       = every_third (List.filter nonblank (tail (JS.split " " registryQueryResult))).
Proof.
  split; [vm_compute; reflexivity|]. split; [vm_compute; reflexivity|].
  intros s. unfold extractVersionsOutOfRegistryKeyStrings.
  rewrite filter_every_third, filter_drops_blank_and_first. reflexivity.
Qed.

(** ** Facts about Node's path functions *)

Section PathFacts.
Variable win : bool.

Lemma chars_eqb_eq a b : NodePath.chars_eqb a b = true <-> a = b.
Proof.
  unfold NodePath.chars_eqb. rewrite String.eqb_eq. split; [|congruence].
  intros H.
  rewrite <- (String.list_ascii_of_string_of_list_ascii a),
          <- (String.list_ascii_of_string_of_list_ascii b).
  congruence.
Qed.

Lemma sep_is_sep : NodePath.is_sep win (NodePath.sep win) = true.
Proof. destruct win; reflexivity. Qed.

Lemma split_by_nonempty p l : JS.split_by p l <> [].
Proof.
  destruct l as [|c l]; simpl; [discriminate|].
  destruct (p c); [discriminate|]. destruct (JS.split_by p l); discriminate.
Qed.

Lemma split_by_no_sep p l : forallb (fun c => negb (p c)) l = true -> JS.split_by p l = [l].
Proof.
  induction l as [|c l IH]; simpl; [reflexivity|].
  intros H. apply andb_true_iff in H as [Hc Hl].
  apply negb_true_iff in Hc. rewrite Hc, (IH Hl). reflexivity.
Qed.

Lemma split_by_app_sep p a c b :
  p c = true -> JS.split_by p (a ++ c :: b) = JS.split_by p a ++ JS.split_by p b.
Proof.
  intros Hc. induction a as [|x a IH]; simpl.
  - rewrite Hc. reflexivity.
  - destruct (p x); [rewrite IH; reflexivity|].
    rewrite IH. pose proof (split_by_nonempty p a) as Hne.
    destruct (JS.split_by p a); [contradiction|reflexivity].
Qed.

Lemma plain_chars_no_sep v : plain_chars win v = true -> forallb (NodePath.not_sep win) v = true.
Proof. unfold plain_chars. intros H. apply andb_true_iff in H. tauto. Qed.

Lemma plain_chars_kept v :
  plain_chars win v = true ->
  NodePath.chars_eqb v [] = false /\ NodePath.chars_eqb v NodePath.dot = false
  /\ NodePath.chars_eqb v NodePath.dotdot = false.
Proof.
  unfold plain_chars. rewrite !andb_true_iff, !negb_true_iff. tauto.
Qed.

Lemma split_by_join_with segs :
  segs <> [] -> forallb (plain_chars win) segs = true ->
  JS.split_by (NodePath.is_sep win) (NodePath.join_with (NodePath.sep win) segs) = segs.
Proof.
  induction segs as [|s segs IH]; [contradiction|]. intros _ H.
  simpl in H. apply andb_true_iff in H as [Hs Hsegs].
  destruct segs as [|s' segs].
  - simpl. apply split_by_no_sep, plain_chars_no_sep, Hs.
  - change (NodePath.join_with (NodePath.sep win) (s :: s' :: segs))
      with (s ++ NodePath.sep win :: NodePath.join_with (NodePath.sep win) (s' :: segs)).
    rewrite split_by_app_sep by apply sep_is_sep.
    rewrite IH by (discriminate || exact Hsegs).
    rewrite split_by_no_sep by (apply plain_chars_no_sep, Hs). reflexivity.
Qed.

Lemma normalize_segments_dot_free allowAboveRoot segs :
  forallb dot_free segs = true ->
  forall acc,
    NodePath.normalize_segments allowAboveRoot acc segs
    = rev acc ++ List.filter kept_segment segs.
Proof.
  induction segs as [|s segs IH]; intros H acc; simpl.
  - rewrite app_nil_r. reflexivity.
  - simpl in H. apply andb_true_iff in H as [Hs Hsegs].
    unfold dot_free in Hs. apply andb_true_iff in Hs as [Hd Hdd].
    apply negb_true_iff in Hd, Hdd. rewrite Hd, Hdd. unfold kept_segment at 1.
    destruct (NodePath.chars_eqb s []); simpl.
    + apply IH, Hsegs.
    + rewrite IH by exact Hsegs. simpl. rewrite <- app_assoc. reflexivity.
Qed.

Lemma join_with_cons_nonempty s x segs :
  x <> [] -> NodePath.join_with s (x :: segs) <> [].
Proof.
  intros Hx. destruct segs; simpl; [exact Hx|].
  destruct x; [contradiction|discriminate].
Qed.


Lemma split_by_join_with_sep_free segs :
  segs <> [] -> forallb (sep_free win) segs = true ->
  JS.split_by (NodePath.is_sep win) (NodePath.join_with (NodePath.sep win) segs) = segs.
Proof.
  induction segs as [|s segs IH]; [contradiction|]. intros _ H.
  simpl in H. apply andb_true_iff in H as [Hs Hsegs].
  destruct segs as [|s' segs].
  - simpl. apply split_by_no_sep, Hs.
  - change (NodePath.join_with (NodePath.sep win) (s :: s' :: segs))
      with (s ++ NodePath.sep win :: NodePath.join_with (NodePath.sep win) (s' :: segs)).
    rewrite split_by_app_sep by apply sep_is_sep.
    rewrite IH by (discriminate || exact Hsegs).
    rewrite split_by_no_sep by exact Hs. reflexivity.
Qed.

Lemma join_with_snoc s init l :
  NodePath.join_with s (init ++ [l])
  = match init with
    | [] => l
    | _ => NodePath.join_with s init ++ s :: l
    end.
Proof.
  induction init as [|x init IH]; [reflexivity|].
  destruct init as [|y init]; [reflexivity|].
  change (NodePath.join_with s ((x :: y :: init) ++ [l]))
    with (x ++ s :: NodePath.join_with s ((y :: init) ++ [l])).
  rewrite IH.
  change (NodePath.join_with s (x :: y :: init))
    with (x ++ s :: NodePath.join_with s (y :: init)).
  rewrite <- app_assoc. reflexivity.
Qed.

Lemma join_with_snoc_cons s init l :
  init <> [] ->
  NodePath.join_with s (init ++ [l]) = NodePath.join_with s init ++ s :: l.
Proof. intros H. rewrite join_with_snoc. destruct init; [contradiction|reflexivity]. Qed.

Lemma snoc_not_nil {A} (init : list A) x : init ++ [x] <> [].
Proof. destruct init; discriminate. Qed.

Lemma split_device_rooted device tail :
  device_ok win device = true ->
  NodePath.split_device win (device ++ NodePath.sep win :: tail)
  = (device, NodePath.sep win :: tail).
Proof.
  unfold device_ok. intros H.
  destruct device as [|c [|d [|e device]]]; try discriminate.
  - simpl. destruct tail; [reflexivity|]. destruct win; reflexivity.
  - simpl. rewrite H. reflexivity.
Qed.

Lemma ends_with_sep_plain prefix l :
  plain_chars win l = true -> NodePath.ends_with_sep win (prefix ++ l) = false.
Proof.
  intros Hl. pose proof (plain_chars_no_sep l Hl) as Hns.
  destruct (plain_chars_kept l Hl) as (Hne & _ & _).
  unfold NodePath.ends_with_sep. rewrite rev_app_distr.
  destruct (rev l) as [|c r] eqn:Hr.
  - apply (f_equal (@rev ascii)) in Hr. rewrite rev_involutive in Hr. subst l.
    discriminate Hne.
  - simpl.
    assert (Hin : In c l) by (apply in_rev; rewrite Hr; left; reflexivity).
    rewrite forallb_forall in Hns. specialize (Hns c Hin).
    unfold NodePath.not_sep in Hns. apply negb_true_iff in Hns. exact Hns.
Qed.

Lemma plain_chars_nonempty l : plain_chars win l = true -> l <> [].
Proof.
  intros Hl ->. destruct (plain_chars_kept [] Hl) as (Hne & _). discriminate Hne.
Qed.

Lemma join_with_snoc_nonempty s init l : l <> [] -> NodePath.join_with s (init ++ [l]) <> [].
Proof.
  intros Hl. rewrite join_with_snoc. destruct init; [exact Hl|].
  intros H. apply app_eq_nil in H as [_ H]. discriminate H.
Qed.


Lemma normalize_chars_rooted device init l :
  device_ok win device = true ->
  forallb (sep_free win) init = true -> forallb dot_free init = true ->
  plain_chars win l = true ->
  NodePath.normalize_chars win
    (device ++ NodePath.sep win :: NodePath.join_with (NodePath.sep win) (init ++ [l]))
  = device ++ NodePath.sep win
      :: NodePath.join_with (NodePath.sep win) (List.filter kept_segment init ++ [l]).
Proof.
  intros Hdev Hsf Hdf Hl.
  destruct (plain_chars_kept l Hl) as (Hne & Hd & Hdd).
  unfold NodePath.normalize_chars.
  rewrite (split_device_rooted device _ Hdev).
  destruct (device ++ NodePath.sep win
              :: NodePath.join_with (NodePath.sep win) (init ++ [l])) as [|c0 p0] eqn:Hp.
  { apply app_eq_nil in Hp as [_ Hp]. discriminate Hp. }
  rewrite <- Hp. clear Hp c0 p0.
  cbn [NodePath.starts_with_sep]. rewrite sep_is_sep. cbn [negb JS.split_by].
  rewrite sep_is_sep.
  rewrite split_by_join_with_sep_free.
  2: { destruct init; discriminate. }
  2: { rewrite forallb_app, Hsf. simpl. unfold sep_free.
       rewrite (plain_chars_no_sep l Hl). reflexivity. }
  cbn [NodePath.normalize_segments]. 
  replace (NodePath.chars_eqb [] [] || NodePath.chars_eqb [] NodePath.dot) with true
    by reflexivity.
  rewrite normalize_segments_dot_free.
  2: { rewrite forallb_app, Hdf. simpl. unfold dot_free. rewrite Hd, Hdd. reflexivity. }
  assert (Hk : kept_segment l = true) by (unfold kept_segment; rewrite Hne; reflexivity).
  rewrite List.filter_app. cbn [rev app List.filter]. rewrite Hk.
  replace (NodePath.ends_with_sep win _) with false.
  2: { symmetry.
       change (device ++ NodePath.sep win
                 :: NodePath.join_with (NodePath.sep win) (init ++ [l]))
         with (device ++ [NodePath.sep win]
                 ++ NodePath.join_with (NodePath.sep win) (init ++ [l])).
       rewrite join_with_snoc. destruct init as [|x init].
       - rewrite app_assoc. apply ends_with_sep_plain, Hl.
       - change (NodePath.join_with (NodePath.sep win) (x :: init)
                   ++ NodePath.sep win :: l)
           with (NodePath.join_with (NodePath.sep win) (x :: init)
                   ++ [NodePath.sep win] ++ l).
         rewrite !app_assoc. apply ends_with_sep_plain, Hl. }
  pose proof (join_with_snoc_nonempty (NodePath.sep win)
                (List.filter kept_segment init) l (plain_chars_nonempty l Hl)) as Htail.
  destruct (NodePath.join_with (NodePath.sep win)
              (List.filter kept_segment init ++ [l])); [contradiction|].
  reflexivity.
Qed.


Lemma join_chars_rooted device args init l :
  args <> [] -> forallb kept_segment args = true ->
  NodePath.join_with (NodePath.sep win) args
  = device ++ NodePath.sep win :: NodePath.join_with (NodePath.sep win) (init ++ [l]) ->
  device_ok win device = true ->
  forallb (sep_free win) init = true -> forallb dot_free init = true ->
  plain_chars win l = true ->
  NodePath.join_chars win args
  = device ++ NodePath.sep win
      :: NodePath.join_with (NodePath.sep win) (List.filter kept_segment init ++ [l]).
Proof.
  intros Hargs Hkept Hjoin Hdev Hsf Hdf Hl. unfold NodePath.join_chars.
  assert (Hall : List.filter (fun a => negb (NodePath.chars_eqb a [])) args = args).
  { clear -Hkept. induction args as [|a args IH]; [reflexivity|].
    simpl in *. apply andb_true_iff in Hkept as [Ha Hrest].
    unfold kept_segment in Ha. rewrite Ha, (IH Hrest). reflexivity. }
  rewrite Hall. destruct args as [|a args]; [contradiction|].
  rewrite Hjoin. apply normalize_chars_rooted; assumption.
Qed.

Lemma drop_while_sep_plain l tail :
  plain_chars win l = true ->
  NodePath.drop_while (NodePath.is_sep win) (rev l ++ tail) = rev l ++ tail.
Proof.
  intros Hl. pose proof (plain_chars_no_sep l Hl) as Hns.
  pose proof (plain_chars_nonempty l Hl) as Hne.
  destruct (rev l) as [|c r] eqn:Hr.
  - apply (f_equal (@rev ascii)) in Hr. rewrite rev_involutive in Hr. contradiction.
  - simpl.
    assert (Hin : In c l) by (apply in_rev; rewrite Hr; left; reflexivity).
    rewrite forallb_forall in Hns. specialize (Hns c Hin).
    unfold NodePath.not_sep in Hns. apply negb_true_iff in Hns. rewrite Hns. reflexivity.
Qed.

Lemma drop_while_base r tail :
  forallb (NodePath.not_sep win) r = true ->
  NodePath.drop_while (NodePath.not_sep win) (r ++ NodePath.sep win :: tail)
  = NodePath.sep win :: tail.
Proof.
  induction r as [|c r IH]; simpl.
  - intros _. unfold NodePath.not_sep. rewrite sep_is_sep. reflexivity.
  - intros H. apply andb_true_iff in H as [Hc Hr]. rewrite Hc. apply IH, Hr.
Qed.

Lemma forallb_rev {A} (p : A -> bool) l : forallb p (rev l) = forallb p l.
Proof.
  induction l as [|x l IH]; [reflexivity|]. simpl.
  rewrite forallb_app, IH. simpl. rewrite andb_true_r. apply andb_comm.
Qed.

Lemma dirname_chars_rooted device init l :
  device_ok win device = true -> init <> [] -> forallb (plain_chars win) init = true ->
  plain_chars win l = true ->
  NodePath.dirname_chars win
    (device ++ NodePath.sep win :: NodePath.join_with (NodePath.sep win) (init ++ [l]))
  = device ++ NodePath.sep win :: NodePath.join_with (NodePath.sep win) init.
Proof.
  intros Hdev Hinit Hplain Hl. unfold NodePath.dirname_chars.
  rewrite (split_device_rooted device _ Hdev).
  destruct (device ++ NodePath.sep win
              :: NodePath.join_with (NodePath.sep win) (init ++ [l])) as [|c0 p0] eqn:Hp.
  { apply app_eq_nil in Hp as [_ Hp]. discriminate Hp. }
  clear Hp c0 p0.
  cbn [NodePath.starts_with_sep]. rewrite sep_is_sep.
  rewrite join_with_snoc. destruct init as [|x init]; [contradiction|].
  set (J := NodePath.join_with (NodePath.sep win) (x :: init)).
  assert (HJ : J <> []).
  { apply join_with_cons_nonempty. simpl in Hplain.
    apply andb_true_iff in Hplain as [Hx _]. apply (plain_chars_nonempty x Hx). }
  unfold NodePath.before_base.
  change (NodePath.sep win :: J ++ NodePath.sep win :: l)
    with ((NodePath.sep win :: J) ++ NodePath.sep win :: l).
  rewrite rev_app_distr. cbn [rev]. rewrite <- !app_assoc. cbn [app].
  rewrite drop_while_sep_plain by exact Hl.
  rewrite drop_while_base
    by (rewrite forallb_rev; apply plain_chars_no_sep, Hl).
  destruct (rev J ++ [NodePath.sep win]) as [|c r] eqn:Hr.
  { apply app_eq_nil in Hr as [_ Hr]. discriminate Hr. }
  assert (Hprefix : rev (c :: r) = NodePath.sep win :: J).
  { rewrite <- Hr, rev_app_distr, rev_involutive. reflexivity. }
  cbn [rev] in Hprefix. cbv zeta. rewrite Hprefix.
  replace (Nat.eqb (length (NodePath.sep win :: J)) 1) with false.
  2: { destruct J; [contradiction|reflexivity]. }
  rewrite andb_false_r. reflexivity.
Qed.

End PathFacts.

Lemma string_of_chars_app a b :
  String.string_of_list_ascii (a ++ b)
  = String.string_of_list_ascii a +:+ String.string_of_list_ascii b.
Proof.
  induction a as [|c a IH]; [reflexivity|].
  change (String c (String.string_of_list_ascii (a ++ b))
          = String c (String.string_of_list_ascii a +:+ String.string_of_list_ascii b)).
  f_equal. exact IH.
Qed.

Lemma string_app_assoc (a b c : string) : (a +:+ b) +:+ c = a +:+ b +:+ c.
Proof.
  induction a as [|x a IH]; [reflexivity|].
  change (String x ((a +:+ b) +:+ c) = String x (a +:+ b +:+ c)). f_equal. exact IH.
Qed.

Lemma dirname_join_rooted win device segments name :
  rooted_ok win device segments = true ->
  plain_segment win name = true ->
  NodePath.dirname win (NodePath.join win [rooted_path win device segments; name])
  = rooted_path win device segments.
Proof.
  intros Hok Hname. unfold rooted_ok in Hok.
  apply andb_true_iff in Hok as [Hok Hplain]. apply andb_true_iff in Hok as [Hdev Hlen].
  set (d := String.list_ascii_of_string device) in *.
  set (init := map String.list_ascii_of_string segments).
  set (n := String.list_ascii_of_string name).
  assert (Hinit : init <> []).
  { subst init. destruct segments; [discriminate|discriminate]. }
  assert (Hplain' : forallb (plain_chars win) init = true).
  { subst init. clear -Hplain. induction segments as [|s segments IH]; [reflexivity|].
    simpl in *. apply andb_true_iff in Hplain as [Hs Hrest].
    unfold plain_segment in Hs. rewrite Hs, (IH Hrest). reflexivity. }
  unfold NodePath.dirname, NodePath.join, rooted_path. fold d init.
  cbn [map]. rewrite String.list_ascii_of_string_of_list_ascii. fold n.
  assert (Hfilter : List.filter (kept_segment) init = init).
  { clear -Hplain'. induction init as [|a init IH]; [reflexivity|].
    simpl in *. apply andb_true_iff in Hplain' as [Ha Hrest].
    destruct (plain_chars_kept win a Ha) as (Hne & _). unfold kept_segment at 1.
    rewrite Hne, (IH Hrest). reflexivity. }
  assert (Hdf : forallb dot_free init = true /\ forallb (sep_free win) init = true).
  { clear -Hplain'. induction init as [|a init IH]; [split; reflexivity|].
    simpl in *. apply andb_true_iff in Hplain' as [Ha Hrest].
    destruct (IH Hrest) as [IH1 IH2]. rewrite IH1, IH2.
    destruct (plain_chars_kept win a Ha) as (_ & Hd & Hdd).
    unfold dot_free, sep_free. rewrite Hd, Hdd, (plain_chars_no_sep win a Ha).
    split; reflexivity. }
  destruct Hdf as [Hdf Hsf].
  rewrite (join_chars_rooted win d _ init n); try assumption.
  - rewrite Hfilter.
    rewrite dirname_chars_rooted by assumption. reflexivity.
  - discriminate.
  - cbn [forallb]. unfold kept_segment.
    destruct (plain_chars_kept win n Hname) as (Hne & _). rewrite Hne.
    replace (NodePath.chars_eqb _ []) with false; [reflexivity|].
    symmetry. apply not_true_iff_false. rewrite chars_eqb_eq.
    intros H. rewrite ?String.list_ascii_of_string_of_list_ascii in H.
    apply app_eq_nil in H as [_ H]. discriminate H.
  - rewrite ?String.list_ascii_of_string_of_list_ascii. cbn [NodePath.join_with]. rewrite join_with_snoc.
    destruct init; [contradiction|]. rewrite <- app_assoc. reflexivity.
Qed.

(** ** Expected install location, by platform and architecture *)

Lemma plain_segment_kept win version :
  plain_segment win version = true ->
  kept_segment (String.list_ascii_of_string version) = true.
Proof.
  intros H. destruct (plain_chars_kept win _ H) as (Hne & _).
  unfold kept_segment. rewrite Hne. reflexivity.
Qed.

Lemma plain_segment_inside win version :
  plain_segment win version = true ->
  sep_free win (String.list_ascii_of_string version) = true
  /\ dot_free (String.list_ascii_of_string version) = true.
Proof.
  intros H. destruct (plain_chars_kept win _ H) as (_ & Hd & Hdd).
  unfold sep_free, dot_free. rewrite Hd, Hdd, (plain_chars_no_sep win _ H).
  split; reflexivity.
Qed.

(** [root] is a directory written with a trailing separator or without;
    [inner] lists its segments after the device. *)
Lemma join_root_version_leaf win device inner root version leaf :
  device_ok win device = true ->
  forallb (sep_free win) inner = true -> forallb dot_free inner = true ->
  forallb kept_segment inner = true ->
  (String.list_ascii_of_string root
   = device ++ NodePath.sep win :: NodePath.join_with (NodePath.sep win) inner
   \/ String.list_ascii_of_string root
      = device ++ NodePath.sep win
          :: NodePath.join_with (NodePath.sep win) (inner ++ [[]])) ->
  inner <> [] ->
  plain_segment win version = true ->
  plain_segment win leaf = true ->
  NodePath.join win [root; version; leaf]
  = String.string_of_list_ascii
      (device ++ NodePath.sep win :: NodePath.join_with (NodePath.sep win) inner)
    +:+ String (NodePath.sep win) version +:+ String (NodePath.sep win) leaf.
Proof.
  intros Hdev Hsf Hdf Hkept Hroot Hinner Hv Hleaf.
  set (v := String.list_ascii_of_string version).
  set (l := String.list_ascii_of_string leaf).
  destruct (plain_segment_inside win version Hv) as [Hvs Hvd].
  pose proof (plain_segment_kept win version Hv) as Hvk.
  assert (Hfilter : List.filter kept_segment inner = inner).
  { clear -Hkept. induction inner as [|a inner IH]; [reflexivity|].
    simpl in *. apply andb_true_iff in Hkept as [Ha Hrest].
    rewrite Ha, (IH Hrest). reflexivity. }
  assert (Hresult :
            NodePath.join_chars win
              [String.list_ascii_of_string root; v; l]
            = device ++ NodePath.sep win
                :: NodePath.join_with (NodePath.sep win) ((inner ++ [v]) ++ [l])).
  { destruct Hroot as [Hroot | Hroot].
    - rewrite (join_chars_rooted win device _ (inner ++ [v]) l);
        try assumption; try discriminate.
      + rewrite List.filter_app, Hfilter. cbn [List.filter]. fold v in Hvk.
        rewrite Hvk. reflexivity.
      + cbn [forallb]. fold v in Hvk. rewrite Hvk.
        unfold kept_segment. rewrite Hroot.
        destruct (plain_chars_kept win l Hleaf) as (Hne & _). rewrite Hne.
        replace (NodePath.chars_eqb _ []) with false; [reflexivity|].
        symmetry. apply not_true_iff_false. rewrite chars_eqb_eq.
        intros H. apply app_eq_nil in H as [_ H]. discriminate H.
      + cbn [NodePath.join_with]. rewrite Hroot.
        rewrite (join_with_snoc_cons _ (inner ++ [v]) l) by apply snoc_not_nil.
        rewrite (join_with_snoc_cons _ inner v) by exact Hinner.
        rewrite <- !app_assoc. reflexivity.
      + rewrite forallb_app, Hsf. cbn [forallb]. fold v in Hvs. rewrite Hvs. reflexivity.
      + rewrite forallb_app, Hdf. cbn [forallb]. fold v in Hvd. rewrite Hvd. reflexivity.
    - rewrite (join_chars_rooted win device _ ((inner ++ [[]]) ++ [v]) l);
        try assumption; try discriminate.
      + rewrite !List.filter_app, Hfilter. cbn [List.filter]. fold v in Hvk.
        rewrite Hvk. replace (kept_segment []) with false by reflexivity.
        rewrite app_nil_r. reflexivity.
      + cbn [forallb]. fold v in Hvk. rewrite Hvk.
        unfold kept_segment. rewrite Hroot.
        destruct (plain_chars_kept win l Hleaf) as (Hne & _). rewrite Hne.
        replace (NodePath.chars_eqb _ []) with false; [reflexivity|].
        symmetry. apply not_true_iff_false. rewrite chars_eqb_eq.
        intros H. apply app_eq_nil in H as [_ H]. discriminate H.
      + cbn [NodePath.join_with]. rewrite Hroot.
        rewrite (join_with_snoc_cons _ ((inner ++ [[]]) ++ [v]) l) by apply snoc_not_nil.
        rewrite (join_with_snoc_cons _ (inner ++ [[]]) v) by apply snoc_not_nil.
        rewrite <- !app_assoc. reflexivity.
      + rewrite !forallb_app, Hsf. cbn [forallb]. fold v in Hvs. rewrite Hvs.
        reflexivity.
      + rewrite !forallb_app, Hdf. cbn [forallb]. fold v in Hvd. rewrite Hvd.
        reflexivity. }
  unfold NodePath.join. cbn [map]. fold v l. rewrite Hresult.
  rewrite (join_with_snoc_cons _ (inner ++ [v]) l) by apply snoc_not_nil.
  rewrite (join_with_snoc_cons _ inner v) by exact Hinner.
  rewrite !app_comm_cons, !app_assoc. rewrite !string_of_chars_app.
  cbn [String.string_of_list_ascii].
  unfold v, l. rewrite !String.string_of_list_ascii_of_string.
  apply string_app_assoc.
Qed.

Lemma join_root_version win device inner root version :
  device_ok win device = true ->
  forallb (sep_free win) inner = true -> forallb dot_free inner = true ->
  forallb kept_segment inner = true ->
  String.list_ascii_of_string root
  = device ++ NodePath.sep win :: NodePath.join_with (NodePath.sep win) inner ->
  inner <> [] ->
  plain_segment win version = true ->
  NodePath.join win [root; version]
  = String.string_of_list_ascii
      (device ++ NodePath.sep win :: NodePath.join_with (NodePath.sep win) inner)
    +:+ String (NodePath.sep win) version.
Proof.
  intros Hdev Hsf Hdf Hkept Hroot Hinner Hv.
  set (v := String.list_ascii_of_string version).
  pose proof (plain_segment_kept win version Hv) as Hvk. fold v in Hvk.
  assert (Hfilter : List.filter kept_segment inner = inner).
  { clear -Hkept. induction inner as [|a inner IH]; [reflexivity|].
    simpl in *. apply andb_true_iff in Hkept as [Ha Hrest].
    rewrite Ha, (IH Hrest). reflexivity. }
  unfold NodePath.join. cbn [map]. fold v.
  rewrite (join_chars_rooted win device _ inner v); try assumption; try discriminate.
  - rewrite Hfilter, (join_with_snoc_cons _ inner v) by exact Hinner.
    rewrite !app_comm_cons, !app_assoc. rewrite !string_of_chars_app.
    cbn [String.string_of_list_ascii].
    unfold v. rewrite !String.string_of_list_ascii_of_string. reflexivity.
  - cbn [forallb]. rewrite Hvk. unfold kept_segment. rewrite Hroot.
    replace (NodePath.chars_eqb _ []) with false; [reflexivity|].
    symmetry. apply not_true_iff_false. rewrite chars_eqb_eq.
    intros H. apply app_eq_nil in H as [_ H]. discriminate H.
  - cbn [NodePath.join_with]. rewrite Hroot.
    rewrite (join_with_snoc_cons _ inner v) by exact Hinner.
    rewrite <- !app_assoc. reflexivity.
Qed.

(** C8. The expected location is computed from the platform, the
    architecture and the version alone.  For a version that is a plain path
    segment it is, on Windows, [C:\Program Files\dotnet\sdk\<version>\dotnet.dll]
    for x64 and the [Program Files (x86)] counterpart for x32; on macOS,
    [/usr/local/share/dotnet/sdk/<version>], with the [x64/dotnet] subtree for
    x64; on any other platform the call throws the unsupported-platform
    error. *)
Theorem getExpectedGlobalSDKPath_locations h version installedArch :
  plain_segment (win h) version = true ->
  (platform h = "win32"%string -> installedArch = "x64"%string ->
   getExpectedGlobalSDKPath h version installedArch
   = Return ("C:\Program Files\dotnet\sdk\" +:+ version +:+ "\dotnet.dll"))
  /\ (platform h = "win32"%string -> installedArch = "x32"%string ->
      getExpectedGlobalSDKPath h version installedArch
      = Return ("C:\Program Files (x86)\dotnet\sdk\" +:+ version +:+ "\dotnet.dll"))
  /\ (platform h = "darwin"%string -> installedArch <> "x64"%string ->
      getExpectedGlobalSDKPath h version installedArch
      = Return ("/usr/local/share/dotnet/sdk/" +:+ version))
  /\ (platform h = "darwin"%string -> installedArch = "x64"%string ->
      getExpectedGlobalSDKPath h version installedArch
      = Return ("/usr/local/share/dotnet/x64/dotnet/sdk/" +:+ version))
  /\ (platform h <> "win32"%string -> platform h <> "darwin"%string ->
      getExpectedGlobalSDKPath h version installedArch
      = Throw (Error "The operating system is unsupported."))
  /\ (forall h', platform h' = platform h ->
      getExpectedGlobalSDKPath h' version installedArch
      = getExpectedGlobalSDKPath h version installedArch).
Proof.
  intros Hv. unfold getExpectedGlobalSDKPath, win in *.
  repeat split.
  - intros Hp ->. rewrite Hp in *.
    change (String.eqb "win32" "win32") with true in *.
    change (String.eqb "x64" "x32") with false.
    change (String.eqb "x64" "x64") with true. cbv iota. f_equal.
    rewrite (join_root_version_leaf true
               (String.list_ascii_of_string "C:")
               (map String.list_ascii_of_string ["Program Files"; "dotnet"; "sdk"]%string));
      try reflexivity; try discriminate; try exact Hv.
    right. reflexivity.
  - intros Hp ->. rewrite Hp in *.
    change (String.eqb "win32" "win32") with true in *.
    change (String.eqb "x32" "x32") with true. cbv iota. f_equal.
    rewrite (join_root_version_leaf true
               (String.list_ascii_of_string "C:")
               (map String.list_ascii_of_string
                  ["Program Files (x86)"; "dotnet"; "sdk"]%string));
      try reflexivity; try discriminate; try exact Hv.
    right. reflexivity.
  - intros Hp Harch. rewrite Hp in *.
    change (String.eqb "darwin" "win32") with false in *.
    change (String.eqb "darwin" "darwin") with true.
    destruct (String.eqb_spec installedArch "x64") as [E|_]; [contradiction|].
    cbv iota. cbn [negb]. cbv iota. f_equal.
    rewrite (join_root_version false []
               (map String.list_ascii_of_string
                  ["usr"; "local"; "share"; "dotnet"; "sdk"]%string));
      try reflexivity; try discriminate; try exact Hv.
  - intros Hp ->. rewrite Hp in *.
    change (String.eqb "darwin" "win32") with false in *.
    change (String.eqb "darwin" "darwin") with true.
    change (String.eqb "x64" "x64") with true. cbv iota. cbn [negb]. cbv iota. f_equal.
    rewrite (join_root_version false []
               (map String.list_ascii_of_string
                  ["usr"; "local"; "share"; "dotnet"; "x64"; "dotnet"; "sdk"]%string));
      try reflexivity; try discriminate; try exact Hv.
  - intros Hw Hd.
    destruct (String.eqb_spec (platform h) "win32"); [contradiction|].
    destruct (String.eqb_spec (platform h) "darwin"); [contradiction|].
    reflexivity.
  - intros h' ->. reflexivity.
Qed.

Lemma getExpectedGlobalSDKPath_locations_witness :
  getExpectedGlobalSDKPath (Samples.windows (RequestError "unreachable"))
    "7.0.103" "x64"
  = Return "C:\Program Files\dotnet\sdk\7.0.103\dotnet.dll"%string.
Proof.
  refine (proj1 (getExpectedGlobalSDKPath_locations
                   (Samples.windows (RequestError "unreachable"))
                   "7.0.103" "x64" _) _ _); reflexivity.
Defined.

(** C10. On Windows an architecture other than x32 and x64 makes
    [getExpectedGlobalSDKPath] throw, and the error is the very one thrown on
    a platform that is neither Windows nor macOS. *)
Theorem getExpectedGlobalSDKPath_windows_other_arch h version installedArch :
  platform h = "win32"%string ->
  installedArch <> "x32"%string ->
  installedArch <> "x64"%string ->
  getExpectedGlobalSDKPath h version installedArch
  = Throw (Error "The operating system is unsupported.")
  /\ forall h' version' arch',
       platform h' <> "win32"%string -> platform h' <> "darwin"%string ->
       getExpectedGlobalSDKPath h' version' arch'
       = getExpectedGlobalSDKPath h version installedArch.
Proof.
  intros Hp H32 H64.
  assert (E : getExpectedGlobalSDKPath h version installedArch = Throw unsupported_os).
  { unfold getExpectedGlobalSDKPath. rewrite Hp. simpl.
    destruct (String.eqb_spec installedArch "x32"); [contradiction|].
    destruct (String.eqb_spec installedArch "x64"); [contradiction|].
    reflexivity. }
  split; [exact E|].
  intros h' version' arch' Hw Hd. rewrite E.
  unfold getExpectedGlobalSDKPath.
  destruct (String.eqb_spec (platform h') "win32"); [contradiction|].
  destruct (String.eqb_spec (platform h') "darwin"); [contradiction|].
  reflexivity.
Qed.

Lemma getExpectedGlobalSDKPath_windows_other_arch_witness :
  getExpectedGlobalSDKPath (Samples.windows (RequestError "unreachable"))
    "7.0.103" "arm64"
  = Throw (Error "The operating system is unsupported.").
Proof.
  refine (proj1 (getExpectedGlobalSDKPath_windows_other_arch
                   (Samples.windows (RequestError "unreachable"))
                   "7.0.103" "arm64" _ _ _));
    [reflexivity | discriminate | discriminate].
Defined.

(** ** The download primitive *)

Section DownloadFacts.
Variable win : bool.

Lemma lookup_path_unlink_written p content (f : FileSystem) entries :
  f !! NodePath.dirname win p = Some entries ->
  lookup_path win p (unlink win p (write_file win p content f)) = None.
Proof.
  intros Hd. unfold unlink, write_file, lookup_path. rewrite Hd.
  rewrite lookup_insert_eq. rewrite lookup_insert_eq.
  rewrite lookup_insert_eq. simpl. apply lookup_delete_eq.
Qed.

Lemma unlink_absent p (f : FileSystem) :
  lookup_path win p f = None -> unlink win p f = f.
Proof.
  unfold lookup_path, unlink. intros H.
  destruct (f !! NodePath.dirname win p) as [entries|]; [|reflexivity].
  simpl in H. rewrite H. reflexivity.
Qed.

Lemma lookup_path_unlink_regular p content (f : FileSystem) :
  lookup_path win p f = Some (RegularFile content) ->
  lookup_path win p (unlink win p f) = None.
Proof.
  unfold lookup_path, unlink. intros H.
  destruct (f !! NodePath.dirname win p) as [entries|] eqn:Hd; [|discriminate].
  simpl in H. rewrite H. rewrite lookup_insert_eq. simpl. apply lookup_delete_eq.
Qed.

Lemma eexist_message_is_not_the_code dest :
  String.eqb (uvException "EEXIST" "file already exists" "open" dest) "EEXIST" = false.
Proof. reflexivity. Qed.

Lemma enoent_message_is_not_eexist dest :
  String.eqb (uvException "ENOENT" "no such file or directory" "open" dest) "EEXIST"
  = false.
Proof. reflexivity. Qed.

End DownloadFacts.

Lemma download_stream_failure h url dest (f1 : FileSystem) entries w :
  f1 !! NodePath.dirname (win h) dest = Some entries ->
  entries !! NodePath.basename (win h) dest = None ->
  failed_response (https_get h url) = true ->
  is_return (download_stream h url dest f1 w).1 = false
  /\ lookup_path (win h) dest (fs (download_stream h url dest f1 w).2) = None.
Proof.
  intros H1 H2 Hfail. unfold download_stream, createWriteStream_wx.
  rewrite H1, H2.
  destruct (https_get h url) as [code msg body|msg]; simpl in Hfail.
  - apply negb_true_iff in Hfail. rewrite Hfail. simpl.
    split; [reflexivity|]. eapply lookup_path_unlink_written; eassumption.
  - simpl. split; [reflexivity|]. eapply lookup_path_unlink_written; eassumption.
Qed.

(** C6. When nothing exists at the destination and the server answers with a
    status other than 200, or the request itself fails, [download] rejects and
    nothing exists at the destination afterwards. *)
Theorem download_failure_leaves_no_file h url dest w :
  lookup_path (win h) dest (fs w) = None ->
  failed_response (https_get h url) = true ->
  is_return (download h url dest w).1 = false
  /\ lookup_path (win h) dest (fs (download h url dest w).2) = None.
Proof.
  intros Habsent Hfail. unfold download, ensure_directory.
  destruct (fs w !! NodePath.dirname (win h) dest) as [entries|] eqn:Hd.
  - apply (download_stream_failure h url dest (fs w) entries); [exact Hd| |exact Hfail].
    unfold lookup_path in Habsent. rewrite Hd in Habsent. exact Habsent.
  - destruct (mkdirSync_error h _) as [message|].
    + split; [reflexivity | exact Habsent].
    + apply (download_stream_failure h url dest _ ∅);
        [apply lookup_insert_eq | apply lookup_empty | exact Hfail].
Qed.

Lemma download_failure_leaves_no_file_witness :
  let h := Samples.windows (Response 404 "Not Found" "") in
  let w := Samples.empty_scratch "C:\Users\dev\installers" in
  let dest := "C:\Users\dev\installers\dotnet-sdk-7.0.201-win-x64.exe"%string in
  is_return (download h "https://example.com/dotnet-sdk-7.0.201-win-x64.exe" dest w).1
  = false
  /\ lookup_path (win h) dest
       (fs (download h "https://example.com/dotnet-sdk-7.0.201-win-x64.exe" dest w).2)
     = None.
Proof.
  apply (download_failure_leaves_no_file
           (Samples.windows (Response 404 "Not Found" ""))
           "https://example.com/dotnet-sdk-7.0.201-win-x64.exe"
           "C:\Users\dev\installers\dotnet-sdk-7.0.201-win-x64.exe"
           (Samples.empty_scratch "C:\Users\dev\installers"));
    vm_compute; reflexivity.
Defined.

(** Whatever the server answers, a regular file found at the destination is
    gone once [download] has run: the open fails with the message
    [EEXIST: file already exists, open '...'], which is not the text
    [EEXIST] the handler compares it with, so the handler unlinks. *)
Lemma download_removes_existing_file h url dest content w :
  lookup_path (win h) dest (fs w) = Some (RegularFile content) ->
  is_return (download h url dest w).1 = false
  /\ lookup_path (win h) dest (fs (download h url dest w).2) = None.
Proof.
  intros Hfile. unfold download, ensure_directory.
  pose proof Hfile as Hlook. unfold lookup_path in Hlook.
  destruct (fs w !! NodePath.dirname (win h) dest) as [entries|] eqn:Hd;
    [|discriminate].
  simpl in Hlook. unfold download_stream, createWriteStream_wx.
  rewrite Hd, Hlook. unfold file_error_handler.
  rewrite eexist_message_is_not_the_code.
  pose proof (lookup_path_unlink_regular (win h) dest content (fs w) Hfile) as Hgone.
  split; [reflexivity|].
  destruct (https_get h url) as [code msg body|msg]; simpl.
  - destruct (Z.eqb code 200); simpl; [exact Hgone|].
    rewrite (unlink_absent (win h) dest _ Hgone). exact Hgone.
  - rewrite (unlink_absent (win h) dest _ Hgone). exact Hgone.
Qed.

(** C7. On the sample Windows machine, downloading to a path that already
    holds the file [old.exe] fails, and the file that was there is deleted. *)
Theorem download_collision_deletes_existing_file :
  let h := Samples.windows (Response 200 "OK" "MZ") in
  let dest := "C:\Users\dev\installers\old.exe"%string in
  let w := Samples.stale_scratch "C:\Users\dev\installers" "old.exe" "kept" in
  lookup_path (win h) dest (fs w) = Some (RegularFile "kept")
  /\ (download h "https://example.com/old.exe" dest w).1
     = Throw (Reason "EEXIST: file already exists, open 'C:\Users\dev\installers\old.exe'")
  /\ lookup_path (win h) dest (fs (download h "https://example.com/old.exe" dest w).2)
     = None.
Proof. repeat split; vm_compute; reflexivity. Qed.

(** ** Wiping the scratch directory *)

Lemma wipeDirectory_returns directory w :
  (FileUtilities.wipeDirectory directory w).1 = Return tt.
Proof.
  unfold FileUtilities.wipeDirectory. simpl.
  destruct (fs w !! directory); reflexivity.
Qed.

Lemma wipeDirectory_actions directory w :
  actions (FileUtilities.wipeDirectory directory w).2
  = actions w ++ [WipeDirectory directory].
Proof.
  unfold FileUtilities.wipeDirectory. simpl.
  destruct (fs w !! directory); reflexivity.
Qed.

Lemma wipeDirectory_fs directory w :
  fs (FileUtilities.wipeDirectory directory w).2
  = match fs w !! directory with
    | Some files =>
        <[directory := filter (fun kv => is_regular kv.2 = false) files]> (fs w)
    | None => fs w
    end.
Proof.
  unfold FileUtilities.wipeDirectory. simpl.
  destruct (fs w !! directory); reflexivity.
Qed.

(** After a wipe the directory holds no regular file, it is still there if
    it was, its subdirectories are kept and other directories are untouched. *)
Lemma wipeDirectory_effect directory w :
  let after := fs (FileUtilities.wipeDirectory directory w).2 in
  no_regular_files directory after
  /\ (is_Some (fs w !! directory) -> is_Some (after !! directory))
  /\ (forall entries name,
        fs w !! directory = Some entries -> entries !! name = Some Subdirectory ->
        lookup_path_in directory name after = Some Subdirectory)
  /\ (forall other, other <> directory -> after !! other = fs w !! other).
Proof.
  cbv zeta. rewrite wipeDirectory_fs.
  destruct (fs w !! directory) as [files|] eqn:Hd.
  - repeat split.
    + intros entries name content He Hn. rewrite lookup_insert_eq in He.
      injection He as <-. apply map_lookup_filter_Some in Hn as [_ Hn].
      discriminate Hn.
    + intros _. rewrite lookup_insert_eq. eauto.
    + intros entries name He Hn. injection He as <-.
      unfold lookup_path_in. rewrite lookup_insert_eq. simpl.
      apply map_lookup_filter_Some. split; [exact Hn | reflexivity].
    + intros other Hne. apply lookup_insert_ne. congruence.
  - repeat split.
    + intros entries name content He. congruence.
    + intros [x Hx]. discriminate.
    + intros entries name He. discriminate.
Qed.

(** ** installSDK *)

Lemma executeInstall_outcome h installerPath w :
  let command := (installer_command h installerPath).1 in
  let args := (installer_command h installerPath).2 in
  let run := executeInstall h installerPath w in
  run.1 = Return (match spawnSync_toString h command args with
                  | Return commandResult => Output commandResult
                  | Throw error => Caught error
                  end)
  /\ actions run.2 = actions w ++ [RunProcess command args]
  /\ fs run.2 = fs w
  /\ uncaught run.2 = uncaught w.
Proof.
  cbv zeta. unfold executeInstall, installer_command.
  destruct (String.eqb (platform h) "darwin"); cbn [fst snd];
    unfold mbind, M_bind, perform;
    match goal with
    | |- context [spawnSync_toString h ?c ?a] => destruct (spawnSync_toString h c a)
    end; repeat split.
Qed.


Lemma download_return_actions h url dest w :
  (download h url dest w).1 = Return tt ->
  actions (download h url dest w).2 = actions w ++ [HttpsGet url].
Proof.
  unfold download.
  destruct (ensure_directory h _ _) as [f1|t]; [|discriminate].
  intros _. unfold download_stream.
  destruct (createWriteStream_wx _ _ _) as [[message|] f2].
  - destruct (file_error_handler h dest message f2). reflexivity.
  - destruct (https_get h url) as [code msg body|msg]; [|reflexivity].
    destruct (Z.eqb code 200); [|reflexivity].
    destruct (pipe_to_disk h dest body); [reflexivity|].
    destruct (file_error_handler _ _ _ _). reflexivity.
Qed.

(** The conflict check never stops [installSDK]; what runs is the download,
    the installer and the final wipe, in that order. *)
Lemma installSDK_steps VR h installingVersion installerUrl w :
  installSDK VR h installingVersion installerUrl w
  = let wiped := (FileUtilities.wipeDirectory (downloadedInstallFilesFolder h) w).2 in
    let installerFile := installerPath_of h installerUrl in
    match download h installerUrl installerFile wiped with
    | (Return _, downloaded) =>
        match executeInstall h installerFile downloaded with
        | (Return installerResult, installed) =>
            (Return installerResult,
             (FileUtilities.wipeDirectory
                (NodePath.dirname (win h) installerFile) installed).2)
        | (Throw t, installed) => (Throw t, installed)
        end
    | (Throw t, downloaded) => (Throw t, downloaded)
    end.
Proof.
  unfold installSDK.
  assert (Hcheck :
            (if String.eqb (platform h) "win32" then
               conflictingVersion ←
                 lift (GlobalWindowsInstallWithConflictingVersionAlreadyExists
                         VR h installingVersion);
               if negb (String.eqb conflictingVersion "") then
                 _ ← perform (Post (DotnetConflictingGlobalWindowsInstallError
                                      (conflict_message conflictingVersion)));
                 throw (DotnetConflictingGlobalWindowsInstallError
                          (conflict_message conflictingVersion))
               else mret tt
             else mret tt) w = (Return tt, w)).
  { destruct (String.eqb (platform h) "win32"); [|reflexivity].
    rewrite conflict_check_returns_empty. reflexivity. }
  unfold mbind at 1. unfold M_bind at 1. rewrite Hcheck.
  unfold downloadInstaller, installerPath_of. cbv zeta.
  unfold mbind, M_bind, mret, M_ret.
  pose proof (wipeDirectory_returns (downloadedInstallFilesFolder h) w) as Hw.
  destruct (FileUtilities.wipeDirectory (downloadedInstallFilesFolder h) w)
    as [c wiped]. simpl in Hw. subst c. cbn [snd].
  destruct (download h installerUrl _ wiped) as [[[]|t] downloaded]; [|reflexivity].
  destruct (executeInstall h _ downloaded) as [[result|t] installed]; [|reflexivity].
  match goal with
  | |- context [FileUtilities.wipeDirectory ?d installed] =>
      pose proof (wipeDirectory_returns d installed) as Hw';
      destruct (FileUtilities.wipeDirectory d installed) as [c' final]
  end.
  simpl in Hw'. subst c'. reflexivity.
Qed.

(** The scratch directory of the sample Windows machine and the file name of
    a release URL have the shape under which the installer lands directly in
    the scratch directory. *)
Example sample_installer_lands_in_scratch :
  let h := Samples.windows (Response 200 "OK" "MZ") in
  let url := "https://example.com/sdk/dotnet-sdk-7.0.201-win-x64.exe"%string in
  downloadedInstallFilesFolder h
  = rooted_path (win h) "C:" ["Users"; "dev"; "installers"]%string
  /\ rooted_ok (win h) "C:" ["Users"; "dev"; "installers"]%string = true
  /\ plain_segment (win h) (JS.last_or_empty (JS.split "/" url)) = true
  /\ NodePath.dirname (win h) (installerPath_of h url) = downloadedInstallFilesFolder h.
Proof. repeat split; vm_compute; reflexivity. Qed.

(** C4. SDK 7.0.203 is recorded on the sample Windows machine and conflicts
    with the requested 7.0.201, yet [installSDK] raises nothing and posts
    nothing: it downloads the installer and runs it. *)
Theorem installSDK_overlooks_conflicting_install :
  let h := Samples.windows (Response 200 "OK" "MZ") in
  let VR := SpecVersionResolver.resolver in
  let url := "https://example.com/sdk/dotnet-sdk-7.0.201-win-x64.exe"%string in
  let run := installSDK VR h "7.0.201" url (Samples.empty_scratch "C:\Users\dev\installers") in
  extractVersionsOutOfRegistryKeyStrings Samples.registry_text = ["7.0.203"%string]
  /\ conflicts VR "7.0.201" "7.0.203" = Return true
  /\ run.1 = Return (Output "done")
  /\ actions run.2
     = [WipeDirectory "C:\Users\dev\installers";
        HttpsGet url;
        RunProcess "C:\Users\dev\installers\dotnet-sdk-7.0.201-win-x64.exe" [];
        WipeDirectory "C:\Users\dev\installers"].
Proof. repeat split; vm_compute; reflexivity. Qed.



(** * Further properties of the code *)

(** ** executeInstall *)

(** X1. [executeInstall] never throws.  When the [try] block runs through,
    the text of what [spawnSync] returned is the value; when something is
    thrown inside the [try] block, the thrown value itself is returned, not
    raised.  The code itself touches no file. *)
Theorem executeInstall_never_throws h installerPath w :
  exists result,
    (executeInstall h installerPath w).1 = Return result
    /\ (forall error,
          spawnSync_toString h (installer_command h installerPath).1
            (installer_command h installerPath).2 = Throw error ->
          result = Caught error)
    /\ (forall commandResult,
          spawnSync_toString h (installer_command h installerPath).1
            (installer_command h installerPath).2 = Return commandResult ->
          result = Output commandResult)
    /\ fs (executeInstall h installerPath w).2 = fs w.
Proof.
  destruct (executeInstall_outcome h installerPath w) as (Hr & _ & Hf & _).
  eexists. split; [exact Hr|]. split; [|split].
  - intros error ->. reflexivity.
  - intros commandResult ->. reflexivity.
  - exact Hf.
Qed.

(** X2. On Windows the installer itself is the command, and it gets the
    silent flags [/quiet /install /norestart] exactly when [net session]
    runs without throwing; otherwise it gets no argument at all. *)
Theorem executeInstall_windows_flags h installerPath w :
  platform h = "win32"%string ->
  actions (executeInstall h installerPath w).2
  = actions w
    ++ [RunProcess (path_resolve h installerPath)
          (if execFileSync_ok h "net" ["session"%string]
           then ["/quiet"; "/install"; "/norestart"]%string else [])].
Proof.
  intros Hp.
  destruct (executeInstall_outcome h installerPath w) as (_ & Ha & _).
  rewrite Ha. unfold installer_command. rewrite Hp.
  change (String.eqb "win32" "darwin") with false. cbv iota. cbn [fst snd].
  rewrite (isElevated_windows h Hp). reflexivity.
Qed.

Lemma executeInstall_windows_flags_witness :
  actions (executeInstall (Samples.windows (Response 200 "OK" "MZ"))
             "C:\Users\dev\installers\sdk.exe"
             (Samples.empty_scratch "C:\Users\dev\installers")).2
  = [RunProcess "C:\Users\dev\installers\sdk.exe" []].
Proof.
  apply (executeInstall_windows_flags (Samples.windows (Response 200 "OK" "MZ"))
           "C:\Users\dev\installers\sdk.exe"
           (Samples.empty_scratch "C:\Users\dev\installers")).
  reflexivity.
Defined.

(** X3. On macOS the installer is never run directly: the command is
    [open -W <path>] with no other argument, whoever runs the process. *)
Theorem executeInstall_macos_opens_package h installerPath w :
  platform h = "darwin"%string ->
  actions (executeInstall h installerPath w).2
  = actions w ++ [RunProcess "open" ["-W"%string; path_resolve h installerPath]].
Proof.
  intros Hp.
  destruct (executeInstall_outcome h installerPath w) as (_ & Ha & _).
  rewrite Ha. unfold installer_command. rewrite Hp. reflexivity.
Qed.

Lemma executeInstall_macos_opens_package_witness :
  actions (executeInstall MoreSamples.mac_root "/Users/dev/installers/sdk.pkg"
             (Samples.empty_scratch "/Users/dev/installers")).2
  = [RunProcess "open" ["-W"; "/Users/dev/installers/sdk.pkg"]%string].
Proof.
  apply (executeInstall_macos_opens_package MoreSamples.mac_root
           "/Users/dev/installers/sdk.pkg"
           (Samples.empty_scratch "/Users/dev/installers")).
  reflexivity.
Defined.

(** ** download, beyond its failures *)

Section DownloadFrame.
Variable win : bool.



Lemma same_elsewhere_entry directory name (f : FileSystem) entries entries' :
  f !! directory = Some entries ->
  (forall n, n <> name -> entries' !! n = entries !! n) ->
  same_elsewhere directory name f (<[directory := entries']> f).
Proof.
  intros Hd Hsame d n Hne. unfold lookup_path_in.
  destruct (decide (d = directory)) as [->|Hdir].
  - rewrite lookup_insert_eq, Hd. simpl. apply Hsame. destruct Hne; congruence.
  - rewrite lookup_insert_ne by congruence. reflexivity.
Qed.




Lemma lookup_path_written p content (f : FileSystem) entries :
  f !! NodePath.dirname win p = Some entries ->
  write_file win p content f
  = <[NodePath.dirname win p := <[NodePath.basename win p := RegularFile content]> entries]> f.
Proof. intros Hd. unfold write_file. rewrite Hd. reflexivity. Qed.

End DownloadFrame.

Lemma file_error_handler_rejects h dest message f :
  is_return (file_error_handler h dest message f).1 = false.
Proof. unfold file_error_handler. destruct (String.eqb _ _); reflexivity. Qed.


(** What a resolved [download] has done. *)
Lemma download_return_inv h url dest w :
  (download h url dest w).1 = Return tt ->
  exists statusMessage body entries,
    https_get h url = Response 200 statusMessage body
    /\ pipe_to_disk h dest body = Finished
    /\ (fs w !! NodePath.dirname (win h) dest = Some entries
        \/ (fs w !! NodePath.dirname (win h) dest = None /\ entries = ∅
            /\ mkdirSync_error h (NodePath.dirname (win h) dest) = None))
    /\ entries !! NodePath.basename (win h) dest = None
    /\ fs (download h url dest w).2
       = <[NodePath.dirname (win h) dest
           := <[NodePath.basename (win h) dest := RegularFile body]> entries]> (fs w).
Proof.
  unfold download, ensure_directory.
  set (dir := NodePath.dirname (win h) dest). set (base := NodePath.basename (win h) dest).
  assert (Hstream : forall (f1 : FileSystem) entries,
             f1 !! dir = Some entries ->
             (download_stream h url dest f1 w).1 = Return tt ->
             exists statusMessage body,
               https_get h url = Response 200 statusMessage body
               /\ pipe_to_disk h dest body = Finished
               /\ entries !! base = None
               /\ fs (download_stream h url dest f1 w).2
                  = <[dir := <[base := RegularFile body]> entries]> f1).
  { intros f1 entries Hd. unfold download_stream, createWriteStream_wx.
    fold dir base. rewrite Hd.
    destruct (entries !! base) as [existing|] eqn:Hb.
    - pose proof (file_error_handler_rejects h dest
                    (uvException "EEXIST" "file already exists" "open" dest) f1) as Hrej.
      destruct (file_error_handler h dest _ f1) as [rejection f3]. cbn [fst snd] in *.
      intros ->. discriminate Hrej.
    - destruct (https_get h url) as [code msg body|msg]; [|discriminate].
      destruct (Z.eqb_spec code 200) as [->|_]; [|discriminate].
      destruct (pipe_to_disk h dest body) as [|partial message] eqn:Hpipe.
      + intros _. exists msg, body. split; [reflexivity|]. split; [exact Hpipe|].
        split; [reflexivity|].
        cbn [fst snd fs with_fs].
        rewrite (lookup_path_written (win h) dest "" f1 entries Hd).
        fold dir base.
        erewrite (lookup_path_written (win h) dest body) by (fold dir; apply lookup_insert_eq).
        fold dir base. rewrite insert_insert_eq, insert_insert_eq. reflexivity.
      + pose proof (file_error_handler_rejects h dest message
                      (write_file (win h) dest partial (write_file (win h) dest "" f1)))
          as Hrej.
        destruct (file_error_handler h dest message _) as [rejection f3].
        cbn [fst snd] in *. intros ->. discriminate Hrej. }
  destruct (fs w !! dir) as [entries|] eqn:Hd.
  - intros Hret. destruct (Hstream (fs w) entries Hd Hret) as (msg & body & H1 & H2 & H3 & H4).
    exists msg, body, entries. repeat split; try assumption. left. reflexivity.
  - destruct (mkdirSync_error h dir) as [message|] eqn:Hmk; [discriminate|].
    intros Hret.
    destruct (Hstream (<[dir := ∅]> (fs w)) ∅ (lookup_insert_eq _ _ _) Hret)
      as (msg & body & H1 & H2 & H3 & H4).
    exists msg, body, ∅. repeat split; try assumption.
    + right. repeat split.
    + rewrite H4. apply insert_insert_eq.
Qed.




(** X4. A download to a free destination that is answered with status 200
    and whose body reaches the disk resolves, and the destination then holds
    exactly the body received. *)
Theorem download_success_stores_body h url dest w statusMessage body :
  lookup_path (win h) dest (fs w) = None ->
  is_Some (fs w !! NodePath.dirname (win h) dest)
  \/ mkdirSync_error h (NodePath.dirname (win h) dest) = None ->
  https_get h url = Response 200 statusMessage body ->
  pipe_to_disk h dest body = Finished ->
  (download h url dest w).1 = Return tt
  /\ lookup_path (win h) dest (fs (download h url dest w).2) = Some (RegularFile body).
Proof.
  intros Habsent Hdir Hget Hpipe.
  assert (Hstream : forall (f1 : FileSystem) entries,
             f1 !! NodePath.dirname (win h) dest = Some entries ->
             entries !! NodePath.basename (win h) dest = None ->
             (download_stream h url dest f1 w).1 = Return tt
             /\ lookup_path (win h) dest (fs (download_stream h url dest f1 w).2)
                = Some (RegularFile body)).
  { intros f1 entries Hd Hb. unfold download_stream, createWriteStream_wx.
    rewrite Hd, Hb, Hget. change (Z.eqb 200 200) with true. cbv iota. rewrite Hpipe.
    split; [reflexivity|]. cbn [fst snd fs with_fs].
    rewrite (lookup_path_written (win h) dest "" f1 entries Hd).
    erewrite (lookup_path_written (win h) dest body) by apply lookup_insert_eq.
    unfold lookup_path. rewrite lookup_insert_eq. cbn. apply lookup_insert_eq. }
  unfold download, ensure_directory.
  destruct (fs w !! NodePath.dirname (win h) dest) as [entries|] eqn:Hd.
  - apply (Hstream (fs w) entries Hd).
    unfold lookup_path in Habsent. rewrite Hd in Habsent. exact Habsent.
  - destruct Hdir as [[x Hx]|Hmk]; [discriminate|]. rewrite Hmk.
    apply (Hstream _ ∅); [apply lookup_insert_eq | apply lookup_empty].
Qed.

Lemma download_success_stores_body_witness :
  let h := Samples.windows (Response 200 "OK" "MZ") in
  let dest := "C:\Users\dev\installers\dotnet-sdk-7.0.201-win-x64.exe"%string in
  let w := Samples.empty_scratch "C:\Users\dev\installers" in
  (download h "https://example.com/dotnet-sdk-7.0.201-win-x64.exe" dest w).1 = Return tt
  /\ lookup_path (win h) dest
       (fs (download h "https://example.com/dotnet-sdk-7.0.201-win-x64.exe" dest w).2)
     = Some (RegularFile "MZ").
Proof.
  apply (download_success_stores_body
           (Samples.windows (Response 200 "OK" "MZ"))
           "https://example.com/dotnet-sdk-7.0.201-win-x64.exe"
           "C:\Users\dev\installers\dotnet-sdk-7.0.201-win-x64.exe"
           (Samples.empty_scratch "C:\Users\dev\installers") "OK" "MZ").
  - vm_compute. reflexivity.
  - right. reflexivity.
  - reflexivity.
  - reflexivity.
Defined.

(** X5. [download] resolves only when the destination was free, the server
    answered with status 200 and the whole body reached the disk; the
    destination then holds that body. *)
Theorem download_resolves_only_after_200 h url dest w :
  (download h url dest w).1 = Return tt ->
  lookup_path (win h) dest (fs w) = None
  /\ exists statusMessage body,
       https_get h url = Response 200 statusMessage body
       /\ pipe_to_disk h dest body = Finished
       /\ lookup_path (win h) dest (fs (download h url dest w).2)
          = Some (RegularFile body).
Proof.
  intros Hret.
  destruct (download_return_inv h url dest w Hret)
    as (msg & body & entries & Hget & Hpipe & Hdir & Hfree & Hfs).
  split.
  - unfold lookup_path. destruct Hdir as [-> | (-> & _ & _)]; [exact Hfree | reflexivity].
  - exists msg, body. split; [exact Hget|]. split; [exact Hpipe|].
    rewrite Hfs. unfold lookup_path. rewrite lookup_insert_eq. cbn.
    apply lookup_insert_eq.
Qed.

Lemma download_resolves_only_after_200_witness :
  let h := Samples.windows (Response 200 "OK" "MZ") in
  let dest := "C:\Users\dev\installers\dotnet-sdk-7.0.201-win-x64.exe"%string in
  let w := Samples.empty_scratch "C:\Users\dev\installers" in
  lookup_path (win h) dest (fs w) = None
  /\ exists statusMessage body,
       https_get h "https://example.com/dotnet-sdk-7.0.201-win-x64.exe"
       = Response 200 statusMessage body
       /\ pipe_to_disk h dest body = Finished
       /\ lookup_path (win h) dest
            (fs (download h "https://example.com/dotnet-sdk-7.0.201-win-x64.exe" dest w).2)
          = Some (RegularFile body).
Proof.
  apply (download_resolves_only_after_200
           (Samples.windows (Response 200 "OK" "MZ"))
           "https://example.com/dotnet-sdk-7.0.201-win-x64.exe"
           "C:\Users\dev\installers\dotnet-sdk-7.0.201-win-x64.exe"
           (Samples.empty_scratch "C:\Users\dev\installers")).
  vm_compute. reflexivity.
Defined.



(** ** wipeDirectory, beyond the scratch directory *)

Lemma filter_subdirectories_twice (files : gmap string node) :
  filter (fun kv : string * node => is_regular kv.2 = false)
    (filter (fun kv : string * node => is_regular kv.2 = false) files)
  = filter (fun kv : string * node => is_regular kv.2 = false) files.
Proof.
  apply map_eq. intros i. apply option_eq. intros x.
  rewrite !map_lookup_filter_Some. tauto.
Qed.

Lemma filter_subdirectories_empty (files : gmap string node) :
  filter (fun kv : string * node => is_regular kv.2 = false) files = ∅
  <-> forall name x, files !! name = Some x -> is_regular x = true.
Proof.
  rewrite map_empty_filter. unfold map_Forall. split.
  - intros H name x Hx. specialize (H name x Hx). cbn in H.
    destruct (is_regular x); [reflexivity | contradiction H; reflexivity].
  - intros H name x Hx. cbn. rewrite (H name x Hx). discriminate.
Qed.

(** X7. Wiping is idempotent on the file system: a second wipe of the same
    directory changes nothing more, whether the directory exists, is empty
    or holds subdirectories. *)
Theorem wipeDirectory_twice directory w :
  fs (FileUtilities.wipeDirectory directory
        (FileUtilities.wipeDirectory directory w).2).2
  = fs (FileUtilities.wipeDirectory directory w).2.
Proof.
  rewrite (wipeDirectory_fs directory (FileUtilities.wipeDirectory directory w).2).
  rewrite (wipeDirectory_fs directory w).
  destruct (fs w !! directory) as [files|] eqn:Hd.
  - rewrite lookup_insert_eq, insert_insert_eq, filter_subdirectories_twice. reflexivity.
  - rewrite Hd. reflexivity.
Qed.

Lemma wipeDirectory_uncaught directory w :
  uncaught (FileUtilities.wipeDirectory directory w).2
  = uncaught w
    ++ match fs w !! directory with
       | None => [Error "readdir"]
       | Some files =>
           replicate
             (size (filter (fun kv : string * node => is_regular kv.2 = false) files))
             (Error "unlink")
       end.
Proof.
  unfold FileUtilities.wipeDirectory. simpl.
  destruct (fs w !! directory); reflexivity.
Qed.

(** X8. [wipeDirectory] always returns to its caller.  Failures are thrown
    from the callbacks, where the caller cannot catch them: none exactly when
    the directory exists and holds regular files only, one when the directory
    is missing, and otherwise one for each entry that is not a regular file. *)
Theorem wipeDirectory_failure_escapes_caller directory w :
  (FileUtilities.wipeDirectory directory w).1 = Return tt
  /\ (uncaught (FileUtilities.wipeDirectory directory w).2 = uncaught w
      <-> exists files,
            fs w !! directory = Some files
            /\ forall name x, files !! name = Some x -> is_regular x = true)
  /\ exists errors,
       uncaught (FileUtilities.wipeDirectory directory w).2 = uncaught w ++ errors
       /\ length errors
          = match fs w !! directory with
            | None => 1
            | Some files =>
                size (filter (fun kv : string * node => is_regular kv.2 = false) files)
            end.
Proof.
  split; [apply wipeDirectory_returns|].
  rewrite wipeDirectory_uncaught.
  assert (Hgrow : forall (l errors : list Thrown), l ++ errors = l -> errors = []).
  { intros l errors H. apply (f_equal (@length Thrown)) in H.
    rewrite length_app in H. destruct errors; [reflexivity | simpl in H; lia]. }
  split.
  - split.
    + intros H. apply Hgrow in H.
      destruct (fs w !! directory) as [files|]; [|discriminate H].
      exists files. split; [reflexivity|].
      apply filter_subdirectories_empty, map_size_empty_inv.
      apply (f_equal (@length Thrown)) in H.
      rewrite length_replicate in H. exact H.
    + intros (files & Hf & Hall). rewrite Hf.
      apply filter_subdirectories_empty in Hall. rewrite Hall, map_size_empty.
      apply app_nil_r.
  - eexists. split; [reflexivity|].
    destruct (fs w !! directory); [apply length_replicate | reflexivity].
Qed.

(** X9. A wipe removes regular files of the one directory and nothing else:
    its subdirectories stay, every other directory is untouched, and the
    directory itself is still there if it was. *)
Theorem wipeDirectory_removes_only_regular_files directory w :
  let after := fs (FileUtilities.wipeDirectory directory w).2 in
  (forall entries name,
     fs w !! directory = Some entries -> entries !! name = Some Subdirectory ->
     lookup_path_in directory name after = Some Subdirectory)
  /\ (forall name content,
        lookup_path_in directory name after <> Some (RegularFile content))
  /\ (forall other, other <> directory -> after !! other = fs w !! other)
  /\ (is_Some (fs w !! directory) <-> is_Some (after !! directory)).
Proof.
  cbv zeta.
  destruct (wipeDirectory_effect directory w) as (Hnone & Hkept & Hsub & Hother).
  cbv zeta in *. split; [exact Hsub|]. split; [|split; [exact Hother|]].
  - intros name content. unfold lookup_path_in.
    destruct (fs (FileUtilities.wipeDirectory directory w).2 !! directory)
      as [entries|] eqn:He; [|discriminate].
    cbn. exact (Hnone entries name content He).
  - split; [exact Hkept|]. rewrite wipeDirectory_fs.
    destruct (fs w !! directory) as [files|] eqn:Hd; [eauto|].
    rewrite Hd. intros [x Hx]. discriminate.
Qed.

(** ** Version extraction, beyond the example *)

Lemma in_every_third {A} (v : A) (l : list A) : In v (every_third l) -> In v l.
Proof.
  revert v.
  assert (H : forall n (l : list A), length l <= n ->
                                     forall v, In v (every_third l) -> In v l).
  { induction n as [|n IH]; intros l0 Hlen v Hin.
    - destruct l0; [exact Hin | simpl in Hlen; lia].
    - destruct l0 as [|a [|b [|c rest]]]; try exact Hin.
      + destruct Hin as [->|[]]. left. reflexivity.
      + cbn [every_third] in Hin. destruct Hin as [->|Hin]; [left; reflexivity|].
        right. right. right. apply IH; [simpl in Hlen; lia | exact Hin]. }
  intros v. apply (H (length l) l). lia.
Qed.

Lemma length_every_third {A} (l : list A) :
  length (every_third l) = (length l + 2) / 3.
Proof.
  assert (H : forall n (l : list A), length l <= n ->
                                     length (every_third l) = (length l + 2) / 3).
  { induction n as [|n IH]; intros l0 Hlen.
    - destruct l0; [reflexivity | simpl in Hlen; lia].
    - destruct l0 as [|a [|b [|c rest]]]; try reflexivity.
      cbn [every_third length]. rewrite IH by (simpl in Hlen; lia).
      replace (S (S (S (length rest))) + 2) with (length rest + 2 + 1 * 3) by lia.
      rewrite Nat.div_add by lia. lia. }
  apply (H (length l) l). lia.
Qed.

Lemma extraction_unfolded registryQueryResult :
  extractVersionsOutOfRegistryKeyStrings registryQueryResult
  = every_third (List.filter nonblank (tail (JS.split " " registryQueryResult))).
Proof.
  unfold extractVersionsOutOfRegistryKeyStrings.
  rewrite filter_every_third, filter_drops_blank_and_first. reflexivity.
Qed.

(** X10. Every string the extraction returns is a non-blank token of the
    query output other than its first token, and the number returned is one
    third, rounded up, of the number of such tokens. *)
Theorem extraction_returns_tokens_of_the_output registryQueryResult :
  (forall version,
     In version (extractVersionsOutOfRegistryKeyStrings registryQueryResult) ->
     version <> ""%string /\ In version (tail (JS.split " " registryQueryResult)))
  /\ length (extractVersionsOutOfRegistryKeyStrings registryQueryResult)
     = (length (List.filter nonblank (tail (JS.split " " registryQueryResult))) + 2) / 3.
Proof.
  rewrite extraction_unfolded. split.
  - intros version Hin. apply in_every_third, filter_In in Hin as [Hin Hnb].
    split; [|exact Hin]. intros ->. discriminate Hnb.
  - apply length_every_third.
Qed.

Lemma split_space_free s :
  space_free s = true -> JS.split " " s = [s].
Proof.
  intros H. unfold JS.split, space_free in *.
  rewrite (split_by_no_sep (Ascii.eqb " ") _ H). cbn [map].
  rewrite String.string_of_list_ascii_of_string. reflexivity.
Qed.

(** X11. A query output without any space, the empty output included, yields
    no version at all: its only token is taken for the echo of the query. *)
Theorem extraction_of_text_without_space registryQueryResult :
  space_free registryQueryResult = true ->
  extractVersionsOutOfRegistryKeyStrings registryQueryResult = [].
Proof.
  intros H. rewrite extraction_unfolded, (split_space_free _ H). reflexivity.
Qed.

Lemma extraction_of_text_without_space_witness :
  extractVersionsOutOfRegistryKeyStrings "7.0.203" = [].
Proof.
  apply (extraction_of_text_without_space "7.0.203"). reflexivity.
Defined.

Lemma chars_app (a b : string) :
  String.list_ascii_of_string (a +:+ b)
  = String.list_ascii_of_string a ++ String.list_ascii_of_string b.
Proof.
  induction a as [|c a IH]; [reflexivity|].
  change (c :: String.list_ascii_of_string (a +:+ b)
          = c :: (String.list_ascii_of_string a ++ String.list_ascii_of_string b)).
  f_equal. exact IH.
Qed.

Lemma split_registry_lines (token : list ascii) records :
  forallb (fun c => negb (Ascii.eqb " " c)) token = true ->
  forallb record_ok records = true ->
  JS.split_by (Ascii.eqb " ")
    (token ++ String.list_ascii_of_string
                (fold_right (fun record rest => registry_line record +:+ rest)
                   ""%string records))
  = token
    :: flat_map
         (fun record : string * string * string =>
            let '(name, type, data) := record in
            [[]; []; []; String.list_ascii_of_string name;
             []; []; []; String.list_ascii_of_string type;
             []; []; []; String.list_ascii_of_string data])
         records.
Proof.
  intros Htoken Hrecords. revert token Htoken.
  induction records as [|[[name type] data] records IH]; intros token Htoken.
  - cbn. rewrite app_nil_r. apply split_by_no_sep, Htoken.
  - cbn [forallb record_ok] in Hrecords.
    apply andb_true_iff in Hrecords as [Hrecord Hrest].
    apply andb_true_iff in Hrecord as [Hnt Hdata].
    apply andb_true_iff in Hnt as [Hname Htype].
    unfold field_ok in Hname, Htype, Hdata.
    apply andb_true_iff in Hname as [_ Hname].
    apply andb_true_iff in Htype as [_ Htype].
    apply andb_true_iff in Hdata as [_ Hdata].
    unfold space_free in Hname, Htype, Hdata.
    cbn [fold_right flat_map registry_line].
    rewrite !chars_app. rewrite <- !app_assoc.
    change (String.list_ascii_of_string "    ")
      with [" "%char; " "%char; " "%char; " "%char].
    cbn [app].
    rewrite (split_by_app_sep (Ascii.eqb " ") token " ") by reflexivity.
    rewrite (split_by_no_sep _ token Htoken).
    cbn [app JS.split_by]. change (Ascii.eqb " " " ") with true. cbv iota.
    rewrite (split_by_app_sep (Ascii.eqb " ") (String.list_ascii_of_string name) " ")
      by reflexivity.
    rewrite (split_by_no_sep _ _ Hname).
    cbn [app JS.split_by]. change (Ascii.eqb " " " ") with true. cbv iota.
    rewrite (split_by_app_sep (Ascii.eqb " ") (String.list_ascii_of_string type) " ")
      by reflexivity.
    rewrite (split_by_no_sep _ _ Htype).
    cbn [app JS.split_by]. change (Ascii.eqb " " " ") with true. cbv iota.
    rewrite (IH Hrest _ Hdata). reflexivity.
Qed.

Lemma every_third_of_records (records : list (string * string * string)) :
  every_third
    (flat_map (fun record : string * string * string =>
                 let '(name, type, data) := record in [name; type; data]) records)
  = map (fun record => record.1.1) records.
Proof.
  induction records as [|[[name type] data] records IH]; [reflexivity|].
  cbn [flat_map app every_third map fst]. rewrite IH. reflexivity.
Qed.

(** X12. On a query output of the shape [reg query] prints (the key, then
    for each value four spaces, its name, four spaces, its type, four spaces,
    its data, line ends included) the extraction returns exactly the value
    names, in order. *)
Theorem extraction_of_registry_output key records :
  space_free key = true ->
  forallb record_ok records = true ->
  extractVersionsOutOfRegistryKeyStrings (registry_output key records)
  = map (fun record => record.1.1) records.
Proof.
  intros Hkey Hrecords. rewrite extraction_unfolded.
  unfold JS.split, registry_output. rewrite chars_app.
  rewrite (split_registry_lines _ records Hkey Hrecords). cbn [map tail].
  rewrite <- every_third_of_records. f_equal.
  clear Hkey. induction records as [|[[name type] data] records IH]; [reflexivity|].
  cbn [forallb record_ok] in Hrecords.
  apply andb_true_iff in Hrecords as [Hrecord Hrest].
  apply andb_true_iff in Hrecord as [Hnt Hdata].
  apply andb_true_iff in Hnt as [Hname Htype].
  unfold field_ok in Hname, Htype, Hdata.
  apply andb_true_iff in Hname as [Hname _].
  apply andb_true_iff in Htype as [Htype _].
  apply andb_true_iff in Hdata as [Hdata _].
  cbn [flat_map app map List.filter].
  rewrite !String.string_of_list_ascii_of_string.
  change (nonblank (String.string_of_list_ascii [])) with false. cbv iota.
  rewrite Hname, Htype, Hdata. rewrite (IH Hrest). reflexivity.
Qed.

Lemma extraction_of_registry_output_witness :
  extractVersionsOutOfRegistryKeyStrings
    (registry_output
       (MoreSamples.crlf +:+ sdkInstallRecords64Bit +:+ MoreSamples.crlf)
       MoreSamples.two_sdks)
  = ["7.0.203"; "8.0.100"]%string.
Proof.
  apply (extraction_of_registry_output
           (MoreSamples.crlf +:+ sdkInstallRecords64Bit +:+ MoreSamples.crlf)
           MoreSamples.two_sdks); reflexivity.
Defined.

(** ** The scan for a conflicting version *)

(** X13. Whatever array the scan is given, it returns the first element the
    condition accepts; it returns the empty string when the condition rejects
    every element; and it throws what a helper of [VersionResolver] throws on
    the first element that makes one throw, unless a conflict came first. *)
Theorem conflict_scan_result VR requestedVersion sdks :
  match conflict_scan VR requestedVersion sdks with
  | Return found =>
      (found = ""%string
       /\ Forall (fun s => conflicts VR requestedVersion s = Return false) sdks)
      \/ exists before after,
           sdks = before ++ found :: after
           /\ Forall (fun s => conflicts VR requestedVersion s = Return false) before
           /\ conflicts VR requestedVersion found = Return true
  | Throw t =>
      exists before bad after,
        sdks = before ++ bad :: after
        /\ Forall (fun s => conflicts VR requestedVersion s = Return false) before
        /\ conflicts VR requestedVersion bad = Throw t
  end.
Proof.
  induction sdks as [|sdk rest IH]; cbn [conflict_scan].
  - left. split; [reflexivity | constructor].
  - destruct (conflicts VR requestedVersion sdk) as [[|]|t] eqn:Hsdk; cbn.
    + right. exists [], rest. split; [reflexivity|]. split; [constructor | exact Hsdk].
    + destruct (conflict_scan VR requestedVersion rest) as [found|t].
      * destruct IH as [[-> Hall] | (before & after & -> & Hall & Hfound)].
        -- left. split; [reflexivity | constructor; assumption].
        -- right. exists (sdk :: before), after.
           split; [reflexivity|]. split; [constructor; assumption | exact Hfound].
      * destruct IH as (before & bad & after & -> & Hall & Hbad).
        exists (sdk :: before), bad, after.
        split; [reflexivity|]. split; [constructor; assumption | exact Hbad].
    + exists [], sdk, rest. split; [reflexivity|]. split; [constructor | exact Hsdk].
Qed.

Lemma strict_eq_self n : JS.strict_eq n n = is_number n.
Proof. destruct n as [|m k]; [reflexivity|]. cbn. apply N.eqb_refl. Qed.

Lemma le_self n : JS.le n n = is_number n.
Proof. destruct n as [|m k]; [reflexivity|]. cbn. apply N.leb_refl. Qed.

Lemma take_while_drop_while p l :
  l = NodePath.take_while p l ++ NodePath.drop_while p l
  /\ forallb p (NodePath.take_while p l) = true.
Proof.
  induction l as [|c l [IH1 IH2]]; [split; reflexivity|]. simpl.
  destruct (p c) eqn:Hc; [|split; reflexivity]. simpl. rewrite Hc, IH2.
  split; [f_equal; exact IH1 | reflexivity].
Qed.

Lemma digit_is_not_dot c : JS.is_digit c = true -> negb (Ascii.eqb "." c) = true.
Proof.
  intros H. destruct (Ascii.eqb_spec "."%char c) as [<-|_]; [discriminate H | reflexivity].
Qed.

Lemma digits_without_dot l :
  forallb JS.is_digit l = true -> forallb (fun c => negb (Ascii.eqb "." c)) l = true.
Proof.
  induction l as [|c l IH]; [reflexivity|]. cbn [forallb]. intros H.
  apply andb_true_iff in H as [Hc Hl]. apply andb_true_iff.
  split; [apply digit_is_not_dot, Hc | apply IH, Hl].
Qed.

(** [Number] reads every unsigned decimal literal as a number. *)
Lemma Number_unsigned_decimal s :
  unsigned_decimal s = true -> is_number (JS.Number s) = true.
Proof.
  unfold unsigned_decimal, JS.Number. cbv zeta.
  destruct (take_while_drop_while JS.is_digit (String.list_ascii_of_string s))
    as [Hsplit Hint].
  set (int := NodePath.take_while JS.is_digit (String.list_ascii_of_string s)) in *.
  destruct (NodePath.drop_while JS.is_digit (String.list_ascii_of_string s))
    as [|c frac].
  - intros _. rewrite app_nil_r in Hsplit. rewrite Hsplit.
    rewrite (split_by_no_sep _ int (digits_without_dot int Hint)).
    rewrite Hint. reflexivity.
  - intros H. apply andb_true_iff in H as [H Hlen].
    apply andb_true_iff in H as [Hc Hfrac].
    apply Ascii.eqb_eq in Hc. subst c. rewrite Hsplit.
    rewrite (split_by_app_sep (Ascii.eqb ".") int "." frac) by reflexivity.
    rewrite (split_by_no_sep _ int (digits_without_dot int Hint)).
    rewrite (split_by_no_sep _ frac (digits_without_dot frac Hfrac)).
    cbn [app]. rewrite Hint, Hfrac, Hlen. reflexivity.
Qed.

(** X14. A version conflicts with itself: when the three helpers give
    unsigned decimal literals for it (digits, with at most one dot), the
    condition of the scan is true for the version against itself, so asking
    for a version that is installed is a conflict. *)
Theorem conflicts_with_itself VR version majorMinor band patch :
  getMajorMinor VR version = Return majorMinor ->
  getFeatureBandFromVersion VR version = Return band ->
  getFeatureBandPatchVersion VR version = Return patch ->
  unsigned_decimal majorMinor = true ->
  unsigned_decimal band = true ->
  unsigned_decimal patch = true ->
  conflicts VR version version = Return true.
Proof.
  intros Hm Hb Hp Hmn Hbn Hpn.
  apply Number_unsigned_decimal in Hmn, Hbn, Hpn.
  unfold conflicts. rewrite Hm. cbn [mbind Completion_bind].
  rewrite strict_eq_self, Hmn. cbn [negb].
  rewrite Hb. cbn [mbind Completion_bind]. rewrite strict_eq_self, Hbn. cbn [negb].
  rewrite Hp. cbn [mbind Completion_bind]. rewrite le_self, Hpn. reflexivity.
Qed.

Lemma conflicts_with_itself_witness :
  conflicts SpecVersionResolver.resolver "7.0.203" "7.0.203" = Return true.
Proof.
  apply (conflicts_with_itself SpecVersionResolver.resolver "7.0.203" "7.0" "2" "3");
    reflexivity.
Defined.

(** ** downloadInstaller *)

Lemma take_while_base win r tail :
  forallb (NodePath.not_sep win) r = true ->
  NodePath.take_while (NodePath.not_sep win) (r ++ NodePath.sep win :: tail) = r.
Proof.
  induction r as [|c r IH]; simpl.
  - intros _. unfold NodePath.not_sep. rewrite sep_is_sep. reflexivity.
  - intros H. apply andb_true_iff in H as [Hc Hr]. rewrite Hc, (IH Hr). reflexivity.
Qed.

Lemma basename_chars_rooted win device init l :
  device_ok win device = true -> plain_chars win l = true ->
  NodePath.basename_chars win
    (device ++ NodePath.sep win :: NodePath.join_with (NodePath.sep win) (init ++ [l]))
  = l.
Proof.
  intros Hdev Hl. unfold NodePath.basename_chars.
  rewrite (split_device_rooted win device _ Hdev).
  assert (Hrest : exists prefix,
             NodePath.sep win :: NodePath.join_with (NodePath.sep win) (init ++ [l])
             = prefix ++ NodePath.sep win :: l).
  { rewrite join_with_snoc. destruct init as [|x init].
    - exists []. reflexivity.
    - exists (NodePath.sep win :: NodePath.join_with (NodePath.sep win) (x :: init)).
      reflexivity. }
  destruct Hrest as [prefix ->].
  rewrite rev_app_distr. cbn [rev]. rewrite <- app_assoc. cbn [app].
  rewrite (drop_while_sep_plain win l _ Hl).
  rewrite take_while_base by (rewrite forallb_rev; apply plain_chars_no_sep, Hl).
  apply rev_involutive.
Qed.

Lemma plain_segments_chars win segments :
  forallb (plain_segment win) segments = true ->
  forallb (plain_chars win) (map String.list_ascii_of_string segments) = true.
Proof.
  induction segments as [|s segments IH]; [reflexivity|]. cbn [forallb map].
  intros H. apply andb_true_iff in H as [Hs Hrest].
  unfold plain_segment in Hs. rewrite Hs, (IH Hrest). reflexivity.
Qed.

Lemma plain_chars_shapes win init :
  forallb (plain_chars win) init = true ->
  List.filter kept_segment init = init
  /\ forallb dot_free init = true /\ forallb (sep_free win) init = true.
Proof.
  induction init as [|a init IH]; [repeat split|]. cbn [forallb List.filter].
  intros H. apply andb_true_iff in H as [Ha Hrest].
  destruct (IH Hrest) as (IH1 & IH2 & IH3).
  destruct (plain_chars_kept win a Ha) as (Hne & Hd & Hdd).
  unfold kept_segment at 1. unfold dot_free at 1. unfold sep_free at 1.
  rewrite Hne, Hd, Hdd, (plain_chars_no_sep win a Ha), IH1, IH2, IH3.
  repeat split.
Qed.

(** The path computed for a plain file name under an absolute, normalised
    directory. *)
Lemma join_rooted win device segments name :
  rooted_ok win device segments = true ->
  plain_segment win name = true ->
  NodePath.join win [rooted_path win device segments; name]
  = String.string_of_list_ascii
      (String.list_ascii_of_string device
         ++ NodePath.sep win
         :: NodePath.join_with (NodePath.sep win)
              (map String.list_ascii_of_string segments
                 ++ [String.list_ascii_of_string name])).
Proof.
  intros Hok Hname. unfold rooted_ok in Hok.
  apply andb_true_iff in Hok as [Hok Hplain]. apply andb_true_iff in Hok as [Hdev Hlen].
  set (d := String.list_ascii_of_string device) in *.
  set (init := map String.list_ascii_of_string segments).
  set (n := String.list_ascii_of_string name).
  assert (Hinit : init <> []) by (subst init; destruct segments; discriminate).
  destruct (plain_chars_shapes win init (plain_segments_chars win segments Hplain))
    as (Hfilter & Hdf & Hsf).
  unfold NodePath.join, rooted_path. fold d init. cbn [map].
  rewrite String.list_ascii_of_string_of_list_ascii. fold n.
  rewrite (join_chars_rooted win d _ init n); try assumption.
  - rewrite Hfilter. reflexivity.
  - discriminate.
  - cbn [forallb]. unfold kept_segment.
    destruct (plain_chars_kept win n Hname) as (Hne & _). rewrite Hne.
    replace (NodePath.chars_eqb _ []) with false; [reflexivity|].
    symmetry. apply not_true_iff_false. rewrite chars_eqb_eq.
    intros H. apply app_eq_nil in H as [_ H]. discriminate H.
  - cbn [NodePath.join_with]. rewrite (join_with_snoc_cons _ init n Hinit).
    rewrite <- app_assoc. reflexivity.
Qed.

Lemma basename_join_rooted win device segments name :
  rooted_ok win device segments = true ->
  plain_segment win name = true ->
  NodePath.basename win (NodePath.join win [rooted_path win device segments; name])
  = name.
Proof.
  intros Hok Hname. rewrite (join_rooted win device segments name Hok Hname).
  unfold NodePath.basename. rewrite String.list_ascii_of_string_of_list_ascii.
  unfold rooted_ok in Hok.
  apply andb_true_iff in Hok as [Hok _]. apply andb_true_iff in Hok as [Hdev _].
  rewrite basename_chars_rooted by assumption.
  apply String.string_of_list_ascii_of_string.
Qed.

(** X15. When [downloadInstaller] returns, the path it returns is the scratch
    directory joined with the last segment of the URL; for an absolute,
    normalised scratch path and a URL ending with a plain file name that is
    the scratch path with the file name as one more segment, so its directory
    is the scratch directory and its base name the file name.  The server
    had answered 200 and the whole body had been piped, and the calls made
    were the wipe of the scratch directory and then the request. *)
Theorem downloadInstaller_returns_scratch_path
    h installerUrl w device segments installerPath :
  downloadedInstallFilesFolder h = rooted_path (win h) device segments ->
  rooted_ok (win h) device segments = true ->
  plain_segment (win h) (JS.last_or_empty (JS.split "/" installerUrl)) = true ->
  (downloadInstaller h installerUrl w).1 = Return installerPath ->
  installerPath = installerPath_of h installerUrl
  /\ installerPath
     = rooted_path (win h) device
         (segments ++ [JS.last_or_empty (JS.split "/" installerUrl)])
  /\ NodePath.dirname (win h) installerPath = downloadedInstallFilesFolder h
  /\ NodePath.basename (win h) installerPath
     = JS.last_or_empty (JS.split "/" installerUrl)
  /\ (exists statusMessage body,
        https_get h installerUrl = Response 200 statusMessage body
        /\ pipe_to_disk h installerPath body = Finished)
  /\ actions (downloadInstaller h installerUrl w).2
     = actions w
       ++ [WipeDirectory (downloadedInstallFilesFolder h); HttpsGet installerUrl].
Proof.
  intros Hfolder Hok Hname.
  pose proof (join_rooted (win h) device segments _ Hok Hname) as Hjoin.
  pose proof (dirname_join_rooted (win h) device segments _ Hok Hname) as Hdir.
  pose proof (basename_join_rooted (win h) device segments _ Hok Hname) as Hbase.
  rewrite <- Hfolder in Hjoin, Hdir, Hbase.
  unfold downloadInstaller. fold (installerPath_of h installerUrl) in *.
  cbv zeta. unfold mbind, M_bind, mret, M_ret.
  pose proof (wipeDirectory_returns (downloadedInstallFilesFolder h) w) as Hw.
  pose proof (wipeDirectory_actions (downloadedInstallFilesFolder h) w) as Hwiped.
  destruct (FileUtilities.wipeDirectory (downloadedInstallFilesFolder h) w)
    as [c wiped]. cbn [fst snd] in *. subst c.
  pose proof (download_return_inv h installerUrl (installerPath_of h installerUrl) wiped)
    as Hinv.
  pose proof (download_return_actions h installerUrl (installerPath_of h installerUrl)
                wiped) as Hactions.
  destruct (download h installerUrl (installerPath_of h installerUrl) wiped)
    as [[[]|t] downloaded]; cbn [fst snd] in *; [|discriminate].
  intros [= <-]. split; [reflexivity|].
  split; [rewrite Hjoin; unfold rooted_path; rewrite map_app; reflexivity|].
  split; [exact Hdir|]. split; [exact Hbase|].
  destruct (Hinv eq_refl) as (msg & body & entries & Hget & Hpipe & _).
  split; [exists msg, body; split; assumption|].
  rewrite (Hactions eq_refl), Hwiped, <- app_assoc. reflexivity.
Qed.

Lemma downloadInstaller_returns_scratch_path_witness :
  let h := Samples.windows (Response 200 "OK" "MZ") in
  let url := "https://example.com/sdk/dotnet-sdk-7.0.201-win-x64.exe"%string in
  let w := Samples.stale_scratch "C:\Users\dev\installers" "old.exe" "kept" in
  let installerPath := "C:\Users\dev\installers\dotnet-sdk-7.0.201-win-x64.exe"%string in
  installerPath = installerPath_of h url
  /\ installerPath
     = rooted_path (win h) "C:"
         (["Users"; "dev"; "installers"]%string ++ [JS.last_or_empty (JS.split "/" url)])
  /\ NodePath.dirname (win h) installerPath = downloadedInstallFilesFolder h
  /\ NodePath.basename (win h) installerPath = JS.last_or_empty (JS.split "/" url)
  /\ (exists statusMessage body,
        https_get h url = Response 200 statusMessage body
        /\ pipe_to_disk h installerPath body = Finished)
  /\ actions (downloadInstaller h url w).2
     = actions w ++ [WipeDirectory (downloadedInstallFilesFolder h); HttpsGet url].
Proof.
  apply (downloadInstaller_returns_scratch_path
           (Samples.windows (Response 200 "OK" "MZ"))
           "https://example.com/sdk/dotnet-sdk-7.0.201-win-x64.exe"
           (Samples.stale_scratch "C:\Users\dev\installers" "old.exe" "kept")
           "C:" ["Users"; "dev"; "installers"]%string
           "C:\Users\dev\installers\dotnet-sdk-7.0.201-win-x64.exe");
    vm_compute; reflexivity.
Defined.

(** ** writeFileOntoDisk *)

Lemma convert_linebreak win text :
  Eol.convert (Eol.linebreak win) (Eol.linebreak win ++ text)
  = Eol.linebreak win ++ Eol.convert (Eol.linebreak win) text.
Proof. destruct win; reflexivity. Qed.

Lemma convert_idempotent win text :
  Eol.convert (Eol.linebreak win) (Eol.convert (Eol.linebreak win) text)
  = Eol.convert (Eol.linebreak win) text.
Proof.
  assert (H : forall n text, length text <= n ->
              Eol.convert (Eol.linebreak win) (Eol.convert (Eol.linebreak win) text)
              = Eol.convert (Eol.linebreak win) text).
  { induction n as [|n IH]; intros l Hlen.
    - destruct l; [reflexivity | simpl in Hlen; lia].
    - destruct l as [|c rest]; [reflexivity|]. cbn [Eol.convert].
      simpl in Hlen.
      destruct (Ascii.eqb c Eol.CR) eqn:Hcr.
      + destruct rest as [|d rest'].
        * destruct win; reflexivity.
        * destruct (Ascii.eqb d Eol.LF); rewrite convert_linebreak, IH;
            try reflexivity; simpl in Hlen; simpl; lia.
      + destruct (Ascii.eqb c Eol.LF) eqn:Hlf.
        * rewrite convert_linebreak, IH by lia. reflexivity.
        * cbn [Eol.convert]. rewrite Hcr, Hlf, IH by lia. reflexivity. }
  apply (H (length text)). lia.
Qed.

Lemma auto_idempotent win text : Eol.auto win (Eol.auto win text) = Eol.auto win text.
Proof.
  unfold Eol.auto. rewrite String.list_ascii_of_string_of_list_ascii, convert_idempotent.
  reflexivity.
Qed.

Lemma convert_posix_no_cr text : ~ In Eol.CR (Eol.convert (Eol.linebreak false) text).
Proof.
  assert (H : forall n text, length text <= n ->
                             ~ In Eol.CR (Eol.convert (Eol.linebreak false) text)).
  { induction n as [|n IH]; intros l Hlen.
    - destruct l; [intros [] | simpl in Hlen; lia].
    - destruct l as [|c rest]; [intros []|]. cbn [Eol.convert]. simpl in Hlen.
      destruct (Ascii.eqb_spec c Eol.CR) as [->|Hcr].
      + destruct rest as [|d rest'].
        * intros [H|[]]. discriminate H.
        * destruct (Ascii.eqb d Eol.LF); cbn [Eol.linebreak app];
            intros [H|H]; try discriminate H;
            revert H; apply IH; simpl in Hlen; simpl; lia.
      + destruct (Ascii.eqb c Eol.LF).
        * cbn [Eol.linebreak app]. intros [H|H]; [discriminate H|].
          revert H. apply IH. lia.
        * intros [H|H]; [congruence|]. revert H. apply IH. lia. }
  apply (H (length text)). lia.
Qed.

Lemma same_regular_files_refl f : same_regular_files f f.
Proof. intros d n content. reflexivity. Qed.

Lemma same_regular_files_trans f g k :
  same_regular_files f g -> same_regular_files g k -> same_regular_files f k.
Proof. intros H1 H2 d n content. rewrite (H2 d n content). apply H1. Qed.

(** [mkdir] creates a directory and touches no regular file. *)
Lemma mkdir_regular h directory (f : FileSystem) :
  (forall content, lookup_path (win h) directory f <> Some (RegularFile content)) ->
  (forall n content, lookup_path_in directory n f <> Some (RegularFile content)) ->
  same_regular_files f (FileUtilitiesDisk.mkdir h directory f).2.
Proof.
  intros H1 H2. unfold FileUtilitiesDisk.mkdir.
  destruct (mkdirSync_error h directory); [apply same_regular_files_refl|].
  cbv zeta. cbn [snd]. intros d n content. unfold lookup_path_in.
  destruct (decide (d = directory)) as [->|Hd].
  - rewrite lookup_insert_eq. cbn. rewrite lookup_empty.
    split; [discriminate|]. intros H. exfalso. exact (H2 n content H).
  - rewrite lookup_insert_ne by congruence.
    destruct (f !! NodePath.dirname (win h) directory) as [entries|] eqn:Hp;
      [|reflexivity].
    destruct (decide (d = NodePath.dirname (win h) directory)) as [->|Hdp].
    + rewrite lookup_insert_eq, Hp. cbn.
      destruct (decide (n = NodePath.basename (win h) directory)) as [->|Hn].
      * rewrite lookup_insert_eq. split; [discriminate|]. intros H. exfalso.
        apply (H1 content). unfold lookup_path. rewrite Hp. exact H.
      * rewrite lookup_insert_ne by congruence. reflexivity.
    + rewrite lookup_insert_ne by congruence. reflexivity.
Qed.

Lemma mkdir_after h directory (f f1 : FileSystem) :
  f !! directory = None ->
  (forall content, lookup_path (win h) directory f <> Some (RegularFile content)) ->
  same_regular_files f f1 ->
  same_regular_files f (FileUtilitiesDisk.mkdir h directory f1).2.
Proof.
  intros Hd Hl Hsame.
  apply (same_regular_files_trans f f1); [exact Hsame|].
  apply mkdir_regular.
  - intros content H. apply (Hl content).
    apply (Hsame (NodePath.dirname (win h) directory)
             (NodePath.basename (win h) directory) content). exact H.
  - intros n content H. apply (Hsame directory n content) in H.
    unfold lookup_path_in in H. rewrite Hd in H. discriminate H.
Qed.

Lemma mkdir_made h directory (f : FileSystem) :
  (FileUtilitiesDisk.mkdir h directory f).1 = Return tt ->
  (FileUtilitiesDisk.mkdir h directory f).2 !! directory = Some ∅.
Proof.
  unfold FileUtilitiesDisk.mkdir.
  destruct (mkdirSync_error h directory); [discriminate|].
  intros _. cbv zeta. cbn [snd]. apply lookup_insert_eq.
Qed.

Lemma mkdir_fails h directory (f : FileSystem) :
  mkdirSync_error h directory <> None ->
  is_return (FileUtilitiesDisk.mkdir h directory f).1 = false.
Proof.
  intros H. unfold FileUtilitiesDisk.mkdir.
  destruct (mkdirSync_error h directory); [reflexivity | contradiction].
Qed.

(** A recursive [mkdir] touches no regular file, whether it returns or
    throws. *)
Lemma mkdirSync_recursive_regular h fuel directory (f : FileSystem) :
  same_regular_files f (FileUtilitiesDisk.mkdirSync_recursive h fuel directory f).2.
Proof.
  revert directory f.
  induction fuel as [|fuel IH]; intros directory f;
    cbn [FileUtilitiesDisk.mkdirSync_recursive];
    destruct (f !! directory) eqn:Hd; try apply same_regular_files_refl;
    destruct (lookup_path (win h) directory f) as [[c|]|] eqn:Hl;
    try apply same_regular_files_refl;
    assert (Hfree : forall content,
               lookup_path (win h) directory f <> Some (RegularFile content))
      by (intros content; rewrite Hl; discriminate).
  1, 2: apply (mkdir_after h directory f f Hd Hfree), same_regular_files_refl.
  all: cbv zeta;
    destruct (String.eqb (NodePath.dirname (win h) directory) directory);
    [apply (mkdir_after h directory f f Hd Hfree), same_regular_files_refl|];
    specialize (IH (NodePath.dirname (win h) directory) f);
    destruct (FileUtilitiesDisk.mkdirSync_recursive h fuel
                (NodePath.dirname (win h) directory) f) as [[[]|t] f1];
    cbn [snd] in *; [apply (mkdir_after h directory f f1 Hd Hfree IH) | exact IH].
Qed.

(** A recursive [mkdir] that returns has made the directory. *)
Lemma mkdirSync_recursive_made h fuel directory (f : FileSystem) :
  (FileUtilitiesDisk.mkdirSync_recursive h fuel directory f).1 = Return tt ->
  is_Some ((FileUtilitiesDisk.mkdirSync_recursive h fuel directory f).2 !! directory).
Proof.
  assert (Hmk : forall f1, (FileUtilitiesDisk.mkdir h directory f1).1 = Return tt ->
                           is_Some ((FileUtilitiesDisk.mkdir h directory f1).2 !! directory)).
  { intros f1 H. rewrite (mkdir_made h directory f1 H). eauto. }
  destruct fuel as [|fuel]; cbn [FileUtilitiesDisk.mkdirSync_recursive];
    destruct (f !! directory) eqn:Hd; try (intros _; cbn [snd]; rewrite Hd; eauto);
    destruct (lookup_path (win h) directory f) as [[c|]|]; try discriminate;
    try apply Hmk.
  all: cbv zeta;
    destruct (String.eqb (NodePath.dirname (win h) directory) directory);
    [apply Hmk|];
    destruct (FileUtilitiesDisk.mkdirSync_recursive h fuel
                (NodePath.dirname (win h) directory) f) as [[[]|t] f1];
    [apply Hmk | discriminate].
Qed.

(** A recursive [mkdir] of a missing directory throws when the [mkdir] of
    that directory fails. *)
Lemma mkdirSync_recursive_fails h fuel directory (f : FileSystem) :
  f !! directory = None ->
  mkdirSync_error h directory <> None ->
  is_return (FileUtilitiesDisk.mkdirSync_recursive h fuel directory f).1 = false.
Proof.
  intros Hd Hfail.
  destruct fuel as [|fuel]; cbn [FileUtilitiesDisk.mkdirSync_recursive]; rewrite Hd;
    destruct (lookup_path (win h) directory f) as [[c|]|]; try reflexivity;
    try apply (mkdir_fails h directory f Hfail).
  all: cbv zeta;
    destruct (String.eqb (NodePath.dirname (win h) directory) directory);
    [apply (mkdir_fails h directory f Hfail)|];
    destruct (FileUtilitiesDisk.mkdirSync_recursive h fuel
                (NodePath.dirname (win h) directory) f) as [[[]|t] f1];
    [apply (mkdir_fails h directory f1 Hfail) | reflexivity].
Qed.

Lemma writeFileSync_throws h p content (f : FileSystem) :
  is_return (FileUtilitiesDisk.writeFileSync h p content f).1 = false ->
  (FileUtilitiesDisk.writeFileSync h p content f).2 = f.
Proof.
  unfold FileUtilitiesDisk.writeFileSync.
  destruct (f !! NodePath.dirname (win h) p) as [entries|].
  - destruct (f !! p), (entries !! NodePath.basename (win h) p) as [[c|]|];
      try discriminate; reflexivity.
  - destruct (lookup_path (win h) (NodePath.dirname (win h) p) f) as [[c|]|];
      reflexivity.
Qed.

Lemma existsSync_false h p (f : FileSystem) :
  FileUtilitiesDisk.existsSync h p f = false -> f !! p = None.
Proof.
  unfold FileUtilitiesDisk.existsSync. destruct (f !! p); [discriminate | reflexivity].
Qed.

(** The directory step of [writeFileOntoDisk]: what it returns and the file
    system it leaves. *)
Lemma writeFileOntoDisk_steps h scriptContent filePath d :
  exists made f1,
    same_regular_files (disk_files d) f1
    /\ (FileUtilitiesDisk.existsSync h (NodePath.dirname (win h) filePath) (disk_files d)
        = true -> made = Return tt /\ f1 = disk_files d)
    /\ (FileUtilitiesDisk.existsSync h (NodePath.dirname (win h) filePath) (disk_files d)
        = false ->
        (made = Return tt -> is_Some (f1 !! NodePath.dirname (win h) filePath))
        /\ (mkdirSync_error h (NodePath.dirname (win h) filePath) <> None ->
            is_return made = false))
    /\ FileUtilitiesDisk.writeFileOntoDisk h scriptContent filePath d
       = match made with
         | Throw t => (Throw t, {| disk_files := f1; disk_modes := disk_modes d |})
         | Return _ =>
             match
               FileUtilitiesDisk.writeFileSync h filePath
                 (Eol.auto (win h) scriptContent) f1
             with
             | (Throw t, f2) =>
                 (Throw t, {| disk_files := f2; disk_modes := disk_modes d |})
             | (Return _, f2) =>
                 (Return tt,
                  {| disk_files := f2;
                     disk_modes :=
                       <[(NodePath.dirname (win h) filePath,
                          NodePath.basename (win h) filePath)
                         := if win h then FileUtilitiesDisk.writable
                            else FileUtilitiesDisk.owner_only]> (disk_modes d) |})
             end
         end.
Proof.
  unfold FileUtilitiesDisk.writeFileOntoDisk. cbv zeta.
  set (dir := NodePath.dirname (win h) filePath).
  destruct (FileUtilitiesDisk.existsSync h dir (disk_files d)) eqn:He.
  - exists (Return tt), (disk_files d).
    split; [apply same_regular_files_refl|]. split; [intros _; split; reflexivity|].
    split; [discriminate | reflexivity].
  - pose proof (mkdirSync_recursive_regular h (S (String.length dir)) dir (disk_files d))
      as Hsame.
    pose proof (mkdirSync_recursive_made h (S (String.length dir)) dir (disk_files d))
      as Hmade.
    pose proof (mkdirSync_recursive_fails h (S (String.length dir)) dir (disk_files d)
                  (existsSync_false h dir _ He)) as Hfails.
    destruct (FileUtilitiesDisk.mkdirSync_recursive h (S (String.length dir)) dir
                (disk_files d)) as [made f1].
    cbn [fst snd] in *. exists made, f1.
    split; [exact Hsame|]. split; [discriminate|]. split; [|reflexivity].
    intros _. split; [|exact Hfails].
    intros ->. apply Hmade. reflexivity.
Qed.

(** What a normal return of [writeFileOntoDisk] leaves behind. *)
Lemma writeFileOntoDisk_inv h scriptContent filePath d :
  (FileUtilitiesDisk.writeFileOntoDisk h scriptContent filePath d).1 = Return tt ->
  exists (f1 : FileSystem) entries,
    f1 !! NodePath.dirname (win h) filePath = Some entries
    /\ f1 !! filePath = None
    /\ entries !! NodePath.basename (win h) filePath <> Some Subdirectory
    /\ same_regular_files (disk_files d) f1
    /\ (is_Some (disk_files d !! NodePath.dirname (win h) filePath) ->
        f1 = disk_files d)
    /\ (FileUtilitiesDisk.writeFileOntoDisk h scriptContent filePath d).2
       = {| disk_files :=
              <[NodePath.dirname (win h) filePath
                := <[NodePath.basename (win h) filePath
                     := RegularFile (Eol.auto (win h) scriptContent)]> entries]> f1;
            disk_modes :=
              <[(NodePath.dirname (win h) filePath, NodePath.basename (win h) filePath)
                := if win h then FileUtilitiesDisk.writable
                   else FileUtilitiesDisk.owner_only]> (disk_modes d) |}.
Proof.
  destruct (writeFileOntoDisk_steps h scriptContent filePath d)
    as (made & f1 & Hsame & Hexists & Hmissing & ->).
  destruct made as [[]|t]; [|discriminate].
  assert (Hkept : is_Some (disk_files d !! NodePath.dirname (win h) filePath) ->
                  f1 = disk_files d).
  { intros [entries0 Hd].
    destruct (FileUtilitiesDisk.existsSync h (NodePath.dirname (win h) filePath)
                (disk_files d)) eqn:He.
    - apply Hexists. reflexivity.
    - apply existsSync_false in He. congruence. }
  unfold FileUtilitiesDisk.writeFileSync.
  destruct (f1 !! NodePath.dirname (win h) filePath) as [entries|] eqn:Hd.
  - destruct (f1 !! filePath) eqn:Hp,
      (entries !! NodePath.basename (win h) filePath) as [[c|]|] eqn:Hb;
      try discriminate; intros _; exists f1, entries;
      (split; [exact Hd|]); (split; [exact Hp|]); (split; [congruence|]);
      (split; [exact Hsame|]); (split; [exact Hkept|]); cbn [snd];
      rewrite (lookup_path_written (win h) filePath _ _ entries Hd); reflexivity.
  - destruct (lookup_path (win h) (NodePath.dirname (win h) filePath) f1) as [[c|]|];
      discriminate.
Qed.

(** X16. When [writeFileOntoDisk] returns, the file holds the content with
    the platform's line breaks, whatever was there before, and off Windows
    its mode is [0o700].  No other mode and no other regular file has
    changed, though directories may have been created; when the directory of
    the path was there already, nothing else in the file system has changed
    at all. *)
Theorem writeFileOntoDisk_round_trip h scriptContent filePath d :
  (FileUtilitiesDisk.writeFileOntoDisk h scriptContent filePath d).1 = Return tt ->
  let after := (FileUtilitiesDisk.writeFileOntoDisk h scriptContent filePath d).2 in
  let directory := NodePath.dirname (win h) filePath in
  let name := NodePath.basename (win h) filePath in
  lookup_path (win h) filePath (disk_files after)
  = Some (RegularFile (Eol.auto (win h) scriptContent))
  /\ (platform h <> "win32"%string ->
      disk_modes after !! (directory, name) = Some 448%N)
  /\ (forall key, key <> (directory, name) ->
                  disk_modes after !! key = disk_modes d !! key)
  /\ (forall dir n content,
        dir <> directory \/ n <> name ->
        lookup_path_in dir n (disk_files after) = Some (RegularFile content)
        <-> lookup_path_in dir n (disk_files d) = Some (RegularFile content))
  /\ (is_Some (disk_files d !! directory) ->
      same_elsewhere directory name (disk_files d) (disk_files after)).
Proof.
  intros Hret. cbv zeta.
  destruct (writeFileOntoDisk_inv h scriptContent filePath d Hret)
    as (f1 & entries & Hdir & _ & _ & Hsame & Hkept & ->).
  cbn [disk_files disk_modes].
  assert (Helse : same_elsewhere (NodePath.dirname (win h) filePath)
                    (NodePath.basename (win h) filePath) f1
                    (<[NodePath.dirname (win h) filePath
                       := <[NodePath.basename (win h) filePath
                            := RegularFile (Eol.auto (win h) scriptContent)]> entries]>
                       f1)).
  { apply (same_elsewhere_entry _ _ f1 entries); [exact Hdir|].
    intros n Hn. apply lookup_insert_ne. congruence. }
  split; [|split; [|split; [|split]]].
  - unfold lookup_path. rewrite lookup_insert_eq. cbn. apply lookup_insert_eq.
  - intros Hp. rewrite lookup_insert_eq. unfold win.
    destruct (String.eqb_spec (platform h) "win32") as [E|_]; [contradiction|].
    reflexivity.
  - intros key Hkey. apply lookup_insert_ne. congruence.
  - intros dir n content Hne. rewrite (Helse dir n Hne). apply Hsame.
  - intros Hthere. rewrite <- (Hkept Hthere). exact Helse.
Qed.

Lemma writeFileOntoDisk_round_trip_witness :
  let h := MoreSamples.mac_root in
  let content := ("#!/bin/sh" +:+ MoreSamples.crlf +:+ "exit 0" +:+ MoreSamples.crlf)%string in
  let filePath := "/Users/dev/scripts/install.sh"%string in
  let d := MoreSamples.disk_with_file "/Users" "notes.txt" "kept" in
  let after := (FileUtilitiesDisk.writeFileOntoDisk h content filePath d).2 in
  let directory := NodePath.dirname (win h) filePath in
  let name := NodePath.basename (win h) filePath in
  lookup_path (win h) filePath (disk_files after)
  = Some (RegularFile (Eol.auto (win h) content))
  /\ (platform h <> "win32"%string ->
      disk_modes after !! (directory, name) = Some 448%N)
  /\ (forall key, key <> (directory, name) ->
                  disk_modes after !! key = disk_modes d !! key)
  /\ (forall dir n content0,
        dir <> directory \/ n <> name ->
        lookup_path_in dir n (disk_files after) = Some (RegularFile content0)
        <-> lookup_path_in dir n (disk_files d) = Some (RegularFile content0))
  /\ (is_Some (disk_files d !! directory) ->
      same_elsewhere directory name (disk_files d) (disk_files after)).
Proof.
  apply (writeFileOntoDisk_round_trip MoreSamples.mac_root
           ("#!/bin/sh" +:+ MoreSamples.crlf +:+ "exit 0" +:+ MoreSamples.crlf)
           "/Users/dev/scripts/install.sh"
           (MoreSamples.disk_with_file "/Users" "notes.txt" "kept")).
  vm_compute. reflexivity.
Defined.

(** The missing directories of the path are created, each entered in its
    parent, and the file next to the new directories stays. *)
Example writeFileOntoDisk_creates_ancestors :
  (FileUtilitiesDisk.writeFileOntoDisk MoreSamples.mac_root "exit 0"
     "/Users/dev/scripts/install.sh"
     (MoreSamples.disk_with_file "/Users" "notes.txt" "kept"))
  = (Return tt,
     {| disk_files :=
          {[ "/Users"%string
               := {[ "notes.txt"%string := RegularFile "kept";
                     "dev"%string := Subdirectory ]};
             "/Users/dev"%string := {[ "scripts"%string := Subdirectory ]};
             "/Users/dev/scripts"%string
               := {[ "install.sh"%string := RegularFile "exit 0" ]} ]};
        disk_modes := {[ ("/Users/dev/scripts", "install.sh")%string := 448%N ]} |}).
Proof. vm_compute. reflexivity. Qed.

(** Under a regular file nothing can be written: [existsSync] is true for
    the file, so no directory is made, and [writeFileSync] throws. *)
Example writeFileOntoDisk_under_a_regular_file :
  let d := MoreSamples.disk_with_file "/Users/dev" "scripts" "text" in
  FileUtilitiesDisk.writeFileOntoDisk MoreSamples.mac_root "exit 0"
    "/Users/dev/scripts/install.sh" d
  = (Throw (Error "ENOTDIR: not a directory, open '/Users/dev/scripts/install.sh'"), d).
Proof. vm_compute. reflexivity. Qed.

(** X17. [writeFileOntoDisk] throws, and leaves everything as it was, when
    the directory of the path is a regular file and when the path names a
    directory.  It throws when its directory does not exist and [mkdirSync]
    fails for that directory.  Whenever [mkdirSync] or the open of
    [writeFileSync] throws, no mode and no regular file has changed. *)
Theorem writeFileOntoDisk_failures h scriptContent filePath d :
  let run := FileUtilitiesDisk.writeFileOntoDisk h scriptContent filePath d in
  let directory := NodePath.dirname (win h) filePath in
  (forall content,
     disk_files d !! directory = None ->
     lookup_path (win h) directory (disk_files d) = Some (RegularFile content) ->
     is_return run.1 = false /\ run.2 = d)
  /\ (is_Some (disk_files d !! directory) ->
      lookup_path (win h) filePath (disk_files d) = Some Subdirectory
      \/ is_Some (disk_files d !! filePath) ->
      is_return run.1 = false /\ run.2 = d)
  /\ (FileUtilitiesDisk.existsSync h directory (disk_files d) = false ->
      mkdirSync_error h directory <> None ->
      is_return run.1 = false)
  /\ (is_return run.1 = false ->
      disk_modes run.2 = disk_modes d
      /\ same_regular_files (disk_files d) (disk_files run.2)).
Proof.
  cbv zeta.
  destruct (writeFileOntoDisk_steps h scriptContent filePath d)
    as (made & f1 & Hsame & Hexists & Hmissing & ->).
  split; [|split; [|split]].
  - intros content Hd Hfile.
    destruct Hexists as [-> ->].
    { unfold FileUtilitiesDisk.existsSync. rewrite Hd, Hfile. reflexivity. }
    unfold FileUtilitiesDisk.writeFileSync. rewrite Hd, Hfile. cbn [fst snd is_return].
    split; [reflexivity | destruct d; reflexivity].
  - intros [entries Hd] Hpath.
    destruct Hexists as [-> ->].
    { unfold FileUtilitiesDisk.existsSync. rewrite Hd. reflexivity. }
    unfold FileUtilitiesDisk.writeFileSync. rewrite Hd.
    destruct Hpath as [Hsub | [table Htable]].
    + unfold lookup_path in Hsub. rewrite Hd in Hsub. cbn in Hsub. rewrite Hsub.
      destruct (disk_files d !! filePath); cbn [fst snd is_return];
        (split; [reflexivity | destruct d; reflexivity]).
    + rewrite Htable. cbn [fst snd is_return].
      split; [reflexivity | destruct d; reflexivity].
  - intros He Hfail. destruct (Hmissing He) as [_ Hthrows].
    specialize (Hthrows Hfail). destruct made as [[]|t]; [discriminate|reflexivity].
  - destruct made as [[]|t]; [|intros _; split; [reflexivity | exact Hsame]].
    pose proof (writeFileSync_throws h filePath (Eol.auto (win h) scriptContent) f1)
      as Hthrows.
    destruct (FileUtilitiesDisk.writeFileSync h filePath
                (Eol.auto (win h) scriptContent) f1) as [[[]|t] f2];
      cbn [fst snd is_return disk_files disk_modes] in *; [discriminate|].
    intros _. split; [reflexivity|]. rewrite (Hthrows eq_refl). exact Hsame.
Qed.

(** X18. Off Windows the file written never contains a carriage return,
    whatever line ends the given content used. *)
Theorem writeFileOntoDisk_posix_has_no_carriage_return h scriptContent filePath d :
  platform h <> "win32"%string ->
  (FileUtilitiesDisk.writeFileOntoDisk h scriptContent filePath d).1 = Return tt ->
  exists written,
    lookup_path (win h) filePath
      (disk_files (FileUtilitiesDisk.writeFileOntoDisk h scriptContent filePath d).2)
    = Some (RegularFile written)
    /\ ~ In Eol.CR (String.list_ascii_of_string written).
Proof.
  intros Hp Hret.
  destruct (writeFileOntoDisk_inv h scriptContent filePath d Hret)
    as (f1 & entries & _ & _ & _ & _ & _ & ->).
  cbn [disk_files]. eexists. split.
  - unfold lookup_path. rewrite lookup_insert_eq. cbn. apply lookup_insert_eq.
  - unfold Eol.auto. rewrite String.list_ascii_of_string_of_list_ascii.
    unfold win. destruct (String.eqb_spec (platform h) "win32") as [E|_]; [contradiction|].
    apply convert_posix_no_cr.
Qed.

Lemma writeFileOntoDisk_posix_has_no_carriage_return_witness :
  exists written,
    lookup_path (win MoreSamples.mac_root) "/Users/dev/scripts/install.sh"
      (disk_files
         (FileUtilitiesDisk.writeFileOntoDisk MoreSamples.mac_root
            ("#!/bin/sh" +:+ MoreSamples.crlf +:+ "exit 0" +:+ MoreSamples.crlf)
            "/Users/dev/scripts/install.sh"
            (MoreSamples.empty_disk "/Users/dev/scripts")).2)
    = Some (RegularFile written)
    /\ ~ In Eol.CR (String.list_ascii_of_string written).
Proof.
  apply (writeFileOntoDisk_posix_has_no_carriage_return MoreSamples.mac_root
           ("#!/bin/sh" +:+ MoreSamples.crlf +:+ "exit 0" +:+ MoreSamples.crlf)
           "/Users/dev/scripts/install.sh" (MoreSamples.empty_disk "/Users/dev/scripts")).
  - vm_compute. discriminate.
  - vm_compute. reflexivity.
Defined.

(** X19. Writing back what [writeFileOntoDisk] has stored changes nothing:
    the second call returns and leaves the same content and the same mode. *)
Theorem writeFileOntoDisk_of_stored_content h scriptContent filePath d :
  (FileUtilitiesDisk.writeFileOntoDisk h scriptContent filePath d).1 = Return tt ->
  FileUtilitiesDisk.writeFileOntoDisk h (Eol.auto (win h) scriptContent) filePath
    (FileUtilitiesDisk.writeFileOntoDisk h scriptContent filePath d).2
  = (Return tt, (FileUtilitiesDisk.writeFileOntoDisk h scriptContent filePath d).2).
Proof.
  intros Hret.
  destruct (writeFileOntoDisk_inv h scriptContent filePath d Hret)
    as (f1 & entries & Hdir & Hfree & _ & _ & _ & ->).
  assert (Hne : NodePath.dirname (win h) filePath <> filePath) by congruence.
  unfold FileUtilitiesDisk.writeFileOntoDisk, FileUtilitiesDisk.existsSync. cbv zeta.
  cbn [disk_files disk_modes]. rewrite lookup_insert_eq. cbv iota beta.
  unfold FileUtilitiesDisk.writeFileSync.
  rewrite lookup_insert_eq, (lookup_insert_ne _ _ _ _ Hne), Hfree, lookup_insert_eq.
  cbv iota beta.
  erewrite (lookup_path_written (win h) filePath) by apply lookup_insert_eq.
  rewrite auto_idempotent, !insert_insert_eq. reflexivity.
Qed.

Lemma writeFileOntoDisk_of_stored_content_witness :
  let h := MoreSamples.mac_root in
  let content := ("#!/bin/sh" +:+ MoreSamples.crlf +:+ "exit 0")%string in
  let first :=
    FileUtilitiesDisk.writeFileOntoDisk h content "/Users/dev/scripts/install.sh"
      (MoreSamples.empty_disk "/Users/dev/scripts") in
  FileUtilitiesDisk.writeFileOntoDisk h (Eol.auto (win h) content)
    "/Users/dev/scripts/install.sh" first.2
  = (Return tt, first.2).
Proof.
  apply (writeFileOntoDisk_of_stored_content MoreSamples.mac_root
           ("#!/bin/sh" +:+ MoreSamples.crlf +:+ "exit 0")
           "/Users/dev/scripts/install.sh" (MoreSamples.empty_disk "/Users/dev/scripts")).
  vm_compute. reflexivity.
Defined.

(** ** MockIndexWebRequestWorker.getCachedData *)

Lemma indexOf_absent a x :
  ~ In x a -> MockIndexWebRequestWorker.indexOf a x = (-1)%Z.
Proof.
  induction a as [|y a IH]; [reflexivity|]. intros Hnot.
  cbn [MockIndexWebRequestWorker.indexOf].
  destruct (String.eqb_spec y x) as [->|_]; [contradiction Hnot; left; reflexivity|].
  rewrite IH by (intros H; apply Hnot; right; exact H). reflexivity.
Qed.

Lemma indexOf_first before x after :
  ~ In x before ->
  MockIndexWebRequestWorker.indexOf (before ++ x :: after) x = Z.of_nat (length before).
Proof.
  induction before as [|y before IH]; intros Hnot.
  - cbn. rewrite String.eqb_refl. reflexivity.
  - cbn [app MockIndexWebRequestWorker.indexOf length].
    destruct (String.eqb_spec y x) as [->|_]; [contradiction Hnot; left; reflexivity|].
    rewrite IH by (intros H; apply Hnot; right; exact H).
    destruct (Z.eqb_spec (Z.of_nat (length before)) (-1)) as [E|_]; lia.
Qed.

Lemma in_split_first (x : string) (l : list string) :
  In x l -> exists before after, l = before ++ x :: after /\ ~ In x before.
Proof.
  induction l as [|y l IH]; [intros []|]. intros Hin.
  destruct (String.eqb_spec y x) as [->|Hne].
  - exists [], l. split; [reflexivity | intros []].
  - destruct Hin as [Heq|Hin]; [contradiction|].
    destruct (IH Hin) as (before & after & -> & Hnot).
    exists (y :: before), after. split; [reflexivity|].
    intros [H|H]; [contradiction | exact (Hnot H)].
Qed.

(** X20. The mock answers a URL it knows with the response stored at the
    position of the first occurrence of that URL, which is [undefined] when
    fewer responses than URLs are stored, and it throws an error naming the
    URL for every URL it does not know. *)
Theorem getCachedData_known_or_error knownUrls matchingUrlResponses url :
  (~ In url knownUrls ->
   MockIndexWebRequestWorker.getCachedData knownUrls matchingUrlResponses url
   = Throw (Error ("The requested URL " +:+ url
                   +:+ " was not expected as the mock object did not have a set response for it.")))
  /\ (forall before after,
        knownUrls = before ++ url :: after -> ~ In url before ->
        MockIndexWebRequestWorker.getCachedData knownUrls matchingUrlResponses url
        = Return (matchingUrlResponses !! length before))
  /\ (In url knownUrls ->
      is_return (MockIndexWebRequestWorker.getCachedData knownUrls matchingUrlResponses url)
      = true).
Proof.
  unfold MockIndexWebRequestWorker.getCachedData. cbv zeta.
  assert (Hknown : forall before after,
             knownUrls = before ++ url :: after -> ~ In url before ->
             (if Z.eqb (MockIndexWebRequestWorker.indexOf knownUrls url) (-1)
              then Throw (Error ("The requested URL " +:+ url
                     +:+ " was not expected as the mock object did not have a set response for it."))
              else Return (matchingUrlResponses
                             !! Z.to_nat (MockIndexWebRequestWorker.indexOf knownUrls url)))
             = Return (matchingUrlResponses !! length before)).
  { intros before after -> Hnot. rewrite (indexOf_first before url after Hnot).
    destruct (Z.eqb_spec (Z.of_nat (length before)) (-1)) as [E|_]; [lia|].
    rewrite Nat2Z.id. reflexivity. }
  split; [|split].
  - intros Hnot. rewrite (indexOf_absent _ _ Hnot). reflexivity.
  - exact Hknown.
  - intros Hin. apply in_split_first in Hin as (before & after & Heq & Hnot).
    rewrite (Hknown before after Heq Hnot). reflexivity.
Qed.

(** ** installSDK and the installer's outcome *)

(** X21. Once the download has resolved, [installSDK] resolves too, with what
    running the installer gave: its output as text, or, when the installer
    could not be run, the error itself as the resolved value. *)
Theorem installSDK_resolves_with_installer_outcome
    VR h installingVersion installerUrl w :
  (download h installerUrl (installerPath_of h installerUrl)
     (FileUtilities.wipeDirectory (downloadedInstallFilesFolder h) w).2).1 = Return tt ->
  (installSDK VR h installingVersion installerUrl w).1
  = Return
      (match spawnSync_toString h
               (installer_command h (installerPath_of h installerUrl)).1
               (installer_command h (installerPath_of h installerUrl)).2 with
       | Return commandResult => Output commandResult
       | Throw error => Caught error
       end).
Proof.
  intros Hdl. rewrite installSDK_steps. cbv zeta.
  destruct (download h installerUrl (installerPath_of h installerUrl) _)
    as [[[]|t] downloaded]; cbn [fst] in Hdl; [|discriminate].
  destruct (executeInstall_outcome h (installerPath_of h installerUrl) downloaded)
    as (Hr & _).
  destruct (executeInstall h (installerPath_of h installerUrl) downloaded)
    as [[result|t] installed]; cbn [fst] in *; [|discriminate].
  injection Hr as ->. reflexivity.
Qed.

Lemma installSDK_resolves_with_installer_outcome_witness :
  (installSDK SpecVersionResolver.resolver MoreSamples.mac_root "7.0.201"
     "https://example.com/sdk/dotnet-sdk-7.0.201-osx-x64.pkg"
     (Samples.empty_scratch "/Users/dev/installers")).1
  = Return (Caught (Error "spawnSync open ENOENT")).
Proof.
  apply (installSDK_resolves_with_installer_outcome SpecVersionResolver.resolver
           MoreSamples.mac_root "7.0.201"
           "https://example.com/sdk/dotnet-sdk-7.0.201-osx-x64.pkg"
           (Samples.empty_scratch "/Users/dev/installers")).
  vm_compute. reflexivity.
Defined.
